(** * release.py: the version bump of the release script

    A shallow embedding of [bump_version] (and of the orchestration in
    [main] around it) from [release.py], together with the part of Python's
    [re] module that the two patterns of [bump_version] exercise.

    Modelling choices.
    - A Python [str] is a sequence of Unicode code points: [str := list N].
    - Python integers are unbounded: [N].  Conversions between integers and
      decimal text are limited as in CPython: [int] and the formatting of an
      integer raise [ValueError] beyond [int_max_str_digits] digits.
    - Exceptions are values of [exn]; fallible code returns a [result].
    - [re] is modelled by a small backtracking matcher ([exec]) over the
      constructs the patterns use: literals, character sets, [^] under
      [re.MULTILINE], concatenation, greedy repetition of a character set
      and capturing groups. *)

From Stdlib Require Import NArith Ascii String Bool Lia List.
Import ListNotations.
Open Scope N_scope.

(** ** Text *)

Definition char := N.
Definition str := list char.

(** An ASCII literal as a [str]. *)
Definition lit (s : string) : str := map N_of_ascii (list_ascii_of_string s).

(** The double quote, U+0022. *)
Definition dquote : char := 34.
(** The line feed, U+000A. *)
Definition newline : char := 10.

Fixpoint str_eqb (a b : str) : bool :=
  match a, b with
  | [], [] => true
  | x :: a', y :: b' => (x =? y) && str_eqb a' b'
  | _, _ => false
  end.

(** [\s] on a [str] pattern: the code points for which [str.isspace] holds. *)
Definition is_space (c : char) : bool :=
  ((9 <=? c) && (c <=? 13)) || ((28 <=? c) && (c <=? 32))
  || (c =? 133) || (c =? 160) || (c =? 5760)
  || ((8192 <=? c) && (c <=? 8202))
  || (c =? 8232) || (c =? 8233) || (c =? 8239) || (c =? 8287) || (c =? 12288).

(** [[0-9]]: the ASCII digits only. *)
Definition is_digit (c : char) : bool := (48 <=? c) && (c <=? 57).

(** ** Exceptions *)

Inductive exn : Type :=
| RuntimeError (msg : str)
| ValueError
| IndexError
| OSError.

Inductive result (A : Type) : Type :=
| Ok (a : A)
| Raise (e : exn).
Arguments Ok {A} a.
Arguments Raise {A} e.

Definition bind {A B} (r : result A) (k : A -> result B) : result B :=
  match r with
  | Ok a => k a
  | Raise e => Raise e
  end.

Notation "x <- e ;; k" := (bind e (fun x => k))
  (at level 61, e at next level, right associativity).

(** ** Integers and their decimal text *)

Definition digit_val (c : char) : N := c - 48.

(** The value of a run of digits, read in base ten. *)
Definition value (d : str) : N :=
  fold_left (fun acc c => 10 * acc + digit_val c) d 0.

(** CPython refuses to convert between text and an integer of more than
    this many decimal digits: the default of [sys.set_int_max_str_digits]. *)
Definition int_max_str_digits : N := 4300.

(** A text of at most [int_max_str_digits] characters. *)
Definition short (d : str) : bool :=
  N.of_nat (length d) <=? int_max_str_digits.

(** [int(s)] on the inputs [bump_version] can pass: a non-empty run of ASCII
    digits is read in base ten (leading zeros allowed, and counted against
    the digit limit); a run longer than the limit, and anything else, is
    reported as [ValueError]. *)
Definition int (s : str) : result N :=
  match s with
  | [] => Raise ValueError
  | _ => if forallb is_digit s
         then if short s then Ok (value s) else Raise ValueError
         else Raise ValueError
  end.

Fixpoint digits_of (fuel : nat) (n : N) : str :=
  match fuel with
  | O => []
  | S f => if n <? 10 then [48 + n]
           else digits_of f (n / 10) ++ [48 + n mod 10]
  end.

(** The decimal text of [n]: base ten, no leading zeros. *)
Definition decimal (n : N) : str := digits_of (S (N.to_nat (N.log2 n))) n.

(** [str(n)], as the f-string formats an integer: its decimal text, or
    [ValueError] when that text is longer than the digit limit. *)
Definition str_of_int (n : N) : result str :=
  if short (decimal n) then Ok (decimal n) else Raise ValueError.

(** ** Regular expressions *)

Inductive regex : Type :=
| Eps
| Chr (c : char)
| Cls (p : char -> bool)
| Bol
| Cat (r1 r2 : regex)
| Star (p : char -> bool)
| Grp (n : nat) (r : regex).

Notation "r1 ;; r2" := (Cat r1 r2) (at level 61, right associativity).

Definition Plus (p : char -> bool) : regex := Cls p ;; Star p.

Fixpoint Lits (s : str) : regex :=
  match s with
  | [] => Eps
  | c :: s' => Chr c ;; Lits s'
  end.

(** Captured groups, most recent binding first. *)
Definition captures := list (nat * str).

Fixpoint lookup (n : nat) (caps : captures) : option str :=
  match caps with
  | [] => None
  | (k, v) :: caps' => if Nat.eqb k n then Some v else lookup n caps'
  end.

(** [^] under [re.MULTILINE]: at the start of the text or right after a line
    feed.  [prev] is the character before the current position. *)
Definition at_bol (prev : option char) : bool :=
  match prev with
  | None => true
  | Some c => c =? newline
  end.

Section Exec.
Context {A : Type}.

(** A continuation receives the character before the position reached, the
    text left and the groups captured so far. *)
Definition cont := option char -> str -> captures -> option A.

(** Greedy repetition: take one more character when possible, and give it
    back when the rest of the pattern fails. *)
Fixpoint star (p : char -> bool) (k : cont)
         (prev : option char) (s : str) (caps : captures) : option A :=
  match s with
  | c :: s' =>
      if p c then
        match star p k (Some c) s' caps with
        | Some a => Some a
        | None => k prev s caps
        end
      else k prev s caps
  | [] => k prev s caps
  end.

Fixpoint exec (r : regex) (k : cont)
         (prev : option char) (s : str) (caps : captures) : option A :=
  match r with
  | Eps => k prev s caps
  | Chr c =>
      match s with
      | c' :: s' => if c' =? c then k (Some c') s' caps else None
      | [] => None
      end
  | Cls p =>
      match s with
      | c' :: s' => if p c' then k (Some c') s' caps else None
      | [] => None
      end
  | Bol => if at_bol prev then k prev s caps else None
  | Cat r1 r2 => exec r1 (exec r2 k) prev s caps
  | Star p => star p k prev s caps
  | Grp n r =>
      exec r (fun prev' s' caps' =>
                k prev' s'
                  ((n, firstn (length s - length s') s) :: caps'))
           prev s caps
  end.
End Exec.

(** A match object: the text before the match, the match itself (group 0),
    the text after it and the numbered groups. *)
Record Match : Type := mkMatch {
  m_pre : str;
  m_whole : str;
  m_post : str;
  m_caps : captures
}.

(** [m.group(n)] for [n >= 1].  Every group of the patterns below takes part
    in every match, so a missing group is a group that does not exist. *)
Definition group (m : Match) (n : nat) : result str :=
  match lookup n (m_caps m) with
  | Some v => Ok v
  | None => Raise IndexError
  end.

(** One attempt at a fixed position: the text left and the groups. *)
Definition try_at (r : regex) (prev : option char) (s : str)
  : option (str * captures) :=
  exec r (fun _ s' caps => Some (s', caps)) prev s [].

(** [pattern.search]: the leftmost position where an attempt succeeds.
    [pre_rev] is the text already passed, last character first. *)
Fixpoint search_from (r : regex) (pre_rev : str) (s : str) : option Match :=
  match try_at r (hd_error pre_rev) s with
  | Some (s', caps) =>
      Some (mkMatch (rev pre_rev) (firstn (length s - length s') s) s' caps)
  | None =>
      match s with
      | [] => None
      | c :: s' => search_from r (c :: pre_rev) s'
      end
  end.

Definition search (r : regex) (text : str) : option Match :=
  search_from r [] text.

(** [pattern.subn(repl, text, count=1)]: the leftmost match, if any, is
    replaced by what [repl] returns for it. *)
Definition subn_count1 (r : regex) (repl : Match -> result str) (text : str)
  : result (str * nat) :=
  match search r text with
  | None => Ok (text, 0%nat)
  | Some m =>
      v <- repl m ;;
      Ok (m_pre m ++ v ++ m_post m, 1%nat)
  end.

(** ** bump_version *)

(** [^(version\s*=\s*\")([0-9]+)\.([0-9]+)\.([0-9]+)(\")], [re.MULTILINE]. *)
Definition pattern : regex :=
  Bol ;;
  Grp 1 (Lits (lit "version") ;; Star is_space ;; Chr 61 ;; Star is_space ;;
         Chr dquote) ;;
  Grp 2 (Plus is_digit) ;; Chr 46 ;;
  Grp 3 (Plus is_digit) ;; Chr 46 ;;
  Grp 4 (Plus is_digit) ;;
  Grp 5 (Chr dquote).

(** [^version\s*=\s*\"([0-9]+\.[0-9]+\.[0-9]+)\"], [re.MULTILINE]. *)
Definition ver_pattern : regex :=
  Bol ;;
  Lits (lit "version") ;; Star is_space ;; Chr 61 ;; Star is_space ;;
  Chr dquote ;;
  Grp 1 (Plus is_digit ;; Chr 46 ;; Plus is_digit ;; Chr 46 ;; Plus is_digit) ;;
  Chr dquote.

Definition repl (part : str) (m : Match) : result str :=
  g2 <- group m 2 ;; major <- int g2 ;;
  g3 <- group m 3 ;; minor <- int g3 ;;
  g4 <- group m 4 ;; patch <- int g4 ;;
  let '(major, minor, patch) :=
    if str_eqb part (lit "major") then (major + 1, 0, 0)
    else if str_eqb part (lit "minor") then (major, minor + 1, 0)
    else (major, minor, patch + 1) in
  g1 <- group m 1 ;;
  smajor <- str_of_int major ;;
  sminor <- str_of_int minor ;;
  spatch <- str_of_int patch ;;
  g5 <- group m 5 ;;
  Ok (g1 ++ smajor ++ [46] ++ sminor ++ [46] ++ spatch ++ g5).

Definition not_found_msg : str :=
  lit "Could not find version = " ++ [dquote] ++ lit "x.y.z" ++ [dquote]
  ++ lit " in pyproject.toml".

Definition bump_version (text : str) (part : str) : result (str * str) :=
  r <- subn_count1 pattern (repl part) text ;;
  let '(new_text, n) := r in
  if Nat.eqb n 0 then Raise (RuntimeError not_found_msg)
  else
    let m2 := search pattern new_text in
    let ver_search := search ver_pattern new_text in
    new_version <-
      match ver_search with
      | Some m => group m 1
      | None => Ok (lit "unknown")
      end ;;
    Ok (new_text, new_version).

(** ** The script around it: [main] *)

(** What the script does to the outside, in order. *)
Inductive event : Type :=
| EvRead
| EvWrite (content : str)
| EvPrint (line : str).

(** The outside world as the script sees it: the contents of pyproject.toml
    ([None] when the file is absent), the directories of the working
    directory, the environment and the log of what the script did. *)
Record World : Type := mkWorld {
  pyproject : option str;
  dirs : list str;
  environ : list (str * str);
  trace : list event
}.

Definition log (e : event) (w : World) : World :=
  mkWorld (pyproject w) (dirs w) (environ w) (trace w ++ [e]).

Definition IO (A : Type) : Type := World -> result A * World.

Definition ret {A} (a : A) : IO A := fun w => (Ok a, w).

Definition bindIO {A B} (m : IO A) (k : A -> IO B) : IO B :=
  fun w =>
    match m w with
    | (Ok a, w') => k a w'
    | (Raise e, w') => (Raise e, w')
    end.

Notation "x <~ e ;; k" := (bindIO e (fun x => k))
  (at level 61, e at next level, right associativity).

Definition lift {A} (r : result A) : IO A := fun w => (r, w).

Fixpoint for_each {A} (l : list A) (body : A -> IO unit) : IO unit :=
  match l with
  | [] => ret tt
  | x :: l' => _ <~ body x ;; for_each l' body
  end.

Fixpoint join (sep : str) (l : list str) : str :=
  match l with
  | [] => []
  | [x] => x
  | x :: l' => x ++ sep ++ join sep l'
  end.

Definition read_pyproject : IO str :=
  fun w =>
    match pyproject w with
    | Some content => (Ok content, log EvRead w)
    | None => (Raise OSError, w)
    end.

Definition write_pyproject (content : str) : IO unit :=
  fun w =>
    (Ok tt,
     mkWorld (Some content) (dirs w) (environ w) (trace w ++ [EvWrite content])).

Definition print (line : str) : IO unit :=
  fun w => (Ok tt, log (EvPrint line) w).

Fixpoint environ_get (name : str) (env : list (str * str)) : option str :=
  match env with
  | [] => None
  | (k, v) :: env' => if str_eqb k name then Some v else environ_get name env'
  end.

(** Truth value of an optional string: [None] and the empty string are false. *)
Definition truthy (v : option str) : bool :=
  match v with
  | Some (_ :: _) => true
  | _ => false
  end.

(** The parsed command line. *)
Record Args : Type := mkArgs {
  repo : str;
  part : str;
  no_upload : bool
}.

Section Main.
(** The operating system calls of the script are taken as given. *)
Variable sys_executable : str.
Variable check_call : list str -> IO unit.
Variable isdir : str -> World -> bool.
Variable rmtree : str -> bool -> IO unit.
Variable glob : str -> World -> list str.

Definition run (cmd : list str) : IO unit :=
  _ <~ print (lit "$ " ++ join (lit " ") cmd) ;;
  check_call cmd.

Definition clean : IO unit :=
  _ <~ for_each [lit "dist"; lit "build"]
         (fun d => fun w => if isdir d w then rmtree d false w else ret tt w) ;;
  fun w => for_each (glob (lit "*.egg-info") w)
             (fun path => rmtree path true) w.

Definition main (args : Args) : IO unit :=
  content <~ read_pyproject ;;
  r <~ lift (bump_version content (part args)) ;;
  let '(new_content, new_version) := r in
  _ <~ write_pyproject new_content ;;
  _ <~ print (lit "Bumped version to " ++ new_version) ;;
  _ <~ clean ;;
  _ <~ run [sys_executable; lit "-m"; lit "build"] ;;
  _ <~ run [sys_executable; lit "-m"; lit "twine"; lit "check"; lit "dist/*"] ;;
  if no_upload args then print (lit "Build complete. Skipping upload.")
  else
    let upload_cmd := [sys_executable; lit "-m"; lit "twine"; lit "upload"] in
    let upload_cmd :=
      if str_eqb (repo args) (lit "testpypi")
      then upload_cmd ++ [lit "--repository"; lit "testpypi"]
      else upload_cmd in
    fun w =>
      let tw_user := environ_get (lit "TWINE_USERNAME") (environ w) in
      let tw_pass := environ_get (lit "TWINE_PASSWORD") (environ w) in
      let upload_cmd :=
        match tw_user, tw_pass with
        | Some u, Some p =>
            if truthy tw_user && truthy tw_pass
            then upload_cmd ++ [lit "--username"; u; lit "--password"; p]
            else upload_cmd
        | _, _ => upload_cmd
        end in
      run (upload_cmd ++ [lit "dist/*"]) w.
End Main.

(** ** Vocabulary of the statements *)

(** The character before the position reached after reading [w]. *)
Definition prev_after (prev : option char) (w : str) : option char :=
  fold_left (fun _ c => Some c) w prev.

(** The words a pattern accepts at a position whose previous character is
    [prev] (groups play no role here). *)
Fixpoint matches (r : regex) (prev : option char) (w : str) : Prop :=
  match r with
  | Eps => w = []
  | Chr c => w = [c]
  | Cls p => exists c, w = [c] /\ p c = true
  | Bol => w = [] /\ at_bol prev = true
  | Cat r1 r2 =>
      exists w1 w2, w = w1 ++ w2 /\ matches r1 prev w1
                    /\ matches r2 (prev_after prev w1) w2
  | Star p => forallb p w = true
  | Grp _ r => matches r prev w
  end.

(** The text left does not start with a character of the set. *)
Definition stops (p : char -> bool) (s : str) : Prop :=
  match s with
  | [] => True
  | c :: _ => p c = false
  end.

(** A non-empty run of ASCII digits. *)
Definition number (d : str) : Prop := d <> [] /\ forallb is_digit d = true.

(** [version], optional white space, [=], optional white space, the opening
    quote: what group 1 of [pattern] captures. *)
Definition decl_head (ws1 ws2 : str) : str :=
  lit "version" ++ ws1 ++ [61] ++ ws2 ++ [dquote].

(** The quoted value, [d1.d2.d3]. *)
Definition dotted (d1 d2 d3 : str) : str := d1 ++ [46] ++ d2 ++ [46] ++ d3.

(** The text of a whole version declaration, from [version] to the closing
    quote. *)
Definition decl (ws1 ws2 d1 d2 d3 : str) : str :=
  decl_head ws1 ws2 ++ dotted d1 d2 d3 ++ [dquote].

Record decl_parts (ws1 ws2 d1 d2 d3 : str) : Prop := mkParts {
  parts_ws1 : forallb is_space ws1 = true;
  parts_ws2 : forallb is_space ws2 = true;
  parts_d1 : number d1;
  parts_d2 : number d2;
  parts_d3 : number d3
}.

(** The groups [pattern] captures on a declaration. *)
Definition decl_caps (ws1 ws2 d1 d2 d3 : str) : captures :=
  [(5%nat, [dquote]); (4%nat, d3); (3%nat, d2); (2%nat, d1);
   (1%nat, decl_head ws1 ws2)].

(** [b] begins with the text of a declaration. *)
Definition begins_decl (b : str) : Prop :=
  exists ws1 ws2 d1 d2 d3 rest,
    decl_parts ws1 ws2 d1 d2 d3 /\ b = decl ws1 ws2 d1 d2 d3 ++ rest.

(** Wherever the text of a declaration begins, the character before it exists
    and is not a line feed.  [pre_rev] is the text already passed, last
    character first. *)
Fixpoint indented_only (pre_rev s : str) : bool :=
  match try_at pattern None s with
  | Some _ => negb (at_bol (hd_error pre_rev))
  | None => true
  end
  && match s with
     | [] => true
     | c :: s' => indented_only (c :: pre_rev) s'
     end.

(** A declaration starts at the position that splits the text into [a] and
    [b]: the position is at the start of a line and [b] begins with the text
    of a declaration. *)
Definition decl_at (a b : str) : Prop :=
  at_bol (prev_after None a) = true /\ begins_decl b.

(** No declaration starts inside [a] when [a] is followed by [b]. *)
Definition no_earlier (a b : str) : Prop :=
  forall a1 a2, a = a1 ++ a2 -> a2 <> [] -> ~ decl_at a1 (a2 ++ b).

(** The text contains a version declaration. *)
Definition has_decl (text : str) : Prop :=
  exists a b, text = a ++ b /\ decl_at a b.

(** The number of positions of the text where [pattern] matches. *)
Fixpoint count_from (r : regex) (pre_rev s : str) : nat :=
  ((match try_at r (hd_error pre_rev) s with Some _ => 1 | None => 0 end)
   + match s with
     | [] => 0
     | c :: s' => count_from r (c :: pre_rev) s'
     end)%nat.

Definition count_decls (text : str) : nat := count_from pattern [] text.

(** A string literal between double quotes. *)
Definition quoted (s : string) : str := [dquote] ++ lit s ++ [dquote].

(** A small pyproject.toml declaring the version [v]. *)
Definition sample (v : string) : str :=
  lit "[project]" ++ [newline] ++
  lit "name = " ++ quoted "geg" ++ [newline] ++
  lit "version = " ++ quoted v ++ [newline] ++
  lit "requires-python = " ++ quoted ">=3.9" ++ [newline].

(** The version read off the first declaration of the text. *)
Definition parse_version (text : str) : option (N * N * N) :=
  match search pattern text with
  | None => None
  | Some m =>
      match (g2 <- group m 2 ;; x <- int g2 ;;
             g3 <- group m 3 ;; y <- int g3 ;;
             g4 <- group m 4 ;; z <- int g4 ;;
             Ok (x, y, z)) with
      | Ok v => Some v
      | Raise _ => None
      end
  end.

(** Semantic-version order: lexicographic on (major, minor, patch). *)
Definition ver_lt (v w : N * N * N) : Prop :=
  let '(a, b, c) := v in
  let '(a', b', c') := w in
  a < a' \/ (a = a' /\ (b < b' \/ (b = b' /\ c < c'))).

(** The increment rule of [repl]. *)
Definition next_version (part : str) (v : N * N * N) : N * N * N :=
  let '(major, minor, patch) := v in
  if str_eqb part (lit "major") then (major + 1, 0, 0)
  else if str_eqb part (lit "minor") then (major, minor + 1, 0)
  else (major, minor, patch + 1).

Definition version_str (v : N * N * N) : str :=
  let '(major, minor, patch) := v in
  dotted (decimal major) (decimal minor) (decimal patch).

(** The declaration rewritten to read the version [v]: head and white space
    kept, the three numbers printed afresh. *)
Definition decl_of_version (ws1 ws2 : str) (v : N * N * N) : str :=
  let '(major, minor, patch) := v in
  decl ws1 ws2 (decimal major) (decimal minor) (decimal patch).

(** The three numbers of a declaration are within the digit limit of [int]. *)
Definition parses (d1 d2 d3 : str) : bool := short d1 && short d2 && short d3.

(** The three numbers of a version are within the digit limit when printed. *)
Definition prints (v : N * N * N) : bool :=
  let '(major, minor, patch) := v in
  short (decimal major) && short (decimal minor) && short (decimal patch).

(** As many nines as the digit limit allows: the largest number [int] reads
    and the f-string prints. *)
Definition nines : str := repeat 57 (N.to_nat int_max_str_digits).

(** The one-line manifest [version = "99...9.0.0"] with 4300 nines. *)
Definition overflow_sample : str := decl [32] [32] nines (lit "0") (lit "0").

(** The lines of a text, split at line feeds. *)
Fixpoint lines_from (cur_rev : str) (s : str) : list str :=
  match s with
  | [] => [rev cur_rev]
  | c :: s' =>
      if c =? newline then rev cur_rev :: lines_from [] s'
      else lines_from (c :: cur_rev) s'
  end.

Definition lines (text : str) : list str := lines_from [] text.

(** The pattern matches at the start of the line, within the line alone. *)
Definition line_declares (l : str) : bool :=
  match try_at pattern None l with
  | Some _ => true
  | None => false
  end.

(** A run of digits written without a leading zero: a single digit, or a
    longer run whose first digit is not 0. *)
Definition no_leading_zero (d : str) : bool :=
  match d with
  | [] => false
  | [_] => true
  | c :: _ => negb (c =? 48)
  end.

(** An action that leaves the contents of pyproject.toml as they are. *)
Definition keeps_pyproject {A} (f : IO A) : Prop :=
  forall w, pyproject (snd (f w)) = pyproject w.

(** Run from the world [w], the action returns normally, adds exactly the
    events [evs] to the log and leaves the environment as it is. *)
Definition emits_at (f : IO unit) (w : World) (evs : list event) : Prop :=
  exists w', f w = (Ok tt, w') /\ trace w' = trace w ++ evs
             /\ environ w' = environ w.

(** An operating system call that returns normally and touches neither the
    log nor the environment. *)
Definition quiet (f : IO unit) : Prop := forall w, emits_at f w [].

(** * Properties *)

(** ** Lists and positions *)

Lemma prev_after_app prev w1 w2 :
  prev_after prev (w1 ++ w2) = prev_after (prev_after prev w1) w2.
Proof. unfold prev_after. apply fold_left_app. Qed.

Lemma prev_after_snoc prev w c : prev_after prev (w ++ [c]) = Some c.
Proof. rewrite prev_after_app. reflexivity. Qed.

Lemma firstn_consumed (w s' s : str) :
  s = w ++ s' -> firstn (length s - length s') s = w.
Proof.
  intros ->. rewrite length_app.
  replace (length w + length s' - length s')%nat with (length w + 0)%nat by lia.
  rewrite firstn_app_2. simpl. apply app_nil_r.
Qed.

Lemma str_eqb_eq a b : str_eqb a b = true <-> a = b.
Proof.
  revert b. induction a as [|x a IH]; intros [|y b]; simpl; split;
    try congruence.
  - intros H. apply andb_true_iff in H as [H1 H2].
    apply N.eqb_eq in H1. apply IH in H2. congruence.
  - intros H. injection H as -> ->. rewrite N.eqb_refl. simpl. now apply IH.
Qed.

Lemma str_eqb_neq a b : a <> b -> str_eqb a b = false.
Proof.
  intros H. destruct (str_eqb a b) eqn:E; [|reflexivity].
  apply str_eqb_eq in E. contradiction.
Qed.

(** ** The matcher accepts only words of the pattern *)

Section ExecFacts.
Context {A : Type}.
Implicit Types (k : @cont A) (p : char -> bool).

Lemma star_sound p k s : forall prev caps a,
  star p k prev s caps = Some a ->
  exists w s', s = w ++ s' /\ forallb p w = true
               /\ k (prev_after prev w) s' caps = Some a.
Proof.
  induction s as [|c s IH]; intros prev caps a H; simpl in H.
  - exists [], []. auto.
  - destruct (p c) eqn:Hc.
    + destruct (star p k (Some c) s caps) eqn:Hs.
      * injection H as <-. apply IH in Hs as (w & s' & -> & Hw & Hk).
        exists (c :: w), s'. simpl. rewrite Hc. auto.
      * exists [], (c :: s). auto.
    + exists [], (c :: s). auto.
Qed.

Lemma exec_sound r : forall k prev s caps a,
  exec r k prev s caps = Some a ->
  exists w s' caps', s = w ++ s' /\ matches r prev w
                     /\ k (prev_after prev w) s' caps' = Some a.
Proof.
  induction r as [|c|p| |r1 IH1 r2 IH2|p|n r IH]; intros k prev s caps a H;
    simpl in H.
  - exists [], s, caps. simpl. auto.
  - destruct s as [|c' s]; [discriminate|].
    destruct (N.eqb_spec c' c) as [->|]; [|discriminate].
    exists [c], s, caps. simpl. auto.
  - destruct s as [|c' s]; [discriminate|].
    destruct (p c') eqn:Hp; [|discriminate].
    exists [c'], s, caps. simpl. eauto.
  - destruct (at_bol prev) eqn:Hb; [|discriminate].
    exists [], s, caps. simpl. auto.
  - apply IH1 in H as (w1 & s1 & caps1 & -> & Hw1 & H).
    apply IH2 in H as (w2 & s2 & caps2 & -> & Hw2 & H).
    exists (w1 ++ w2), s2, caps2. rewrite app_assoc, prev_after_app.
    simpl. eauto 8.
  - apply star_sound in H as (w & s' & -> & Hw & H).
    exists w, s', caps. simpl. auto.
  - apply IH in H as (w & s' & caps' & -> & Hw & H).
    exists w, s', ((n, firstn (length (w ++ s') - length s') (w ++ s')) :: caps').
    simpl. auto.
Qed.

(** ** Running the matcher along a known word *)

Lemma exec_Chr c k prev s caps :
  exec (Chr c) k prev (c :: s) caps = k (Some c) s caps.
Proof. simpl. now rewrite N.eqb_refl. Qed.

Lemma exec_Lits l k prev s caps :
  exec (Lits l) k prev (l ++ s) caps = k (prev_after prev l) s caps.
Proof.
  revert prev. induction l as [|c l IH]; intros prev; [reflexivity|].
  cbn [Lits app]. cbn [exec]. rewrite N.eqb_refl. apply IH.
Qed.

Lemma star_stop p k prev s caps :
  stops p s -> star p k prev s caps = k prev s caps.
Proof. destruct s as [|c s]; simpl; [reflexivity|]. now intros ->. Qed.

Lemma star_take p k ws : forall prev s caps a,
  forallb p ws = true ->
  star p k (prev_after prev ws) s caps = Some a ->
  star p k prev (ws ++ s) caps = Some a.
Proof.
  induction ws as [|c ws IH]; intros prev s caps a Hws H; [exact H|].
  simpl in Hws. apply andb_true_iff in Hws as [Hc Hws].
  simpl. rewrite Hc. now rewrite (IH (Some c) s caps a Hws H).
Qed.

Lemma exec_Star p k ws prev s caps a :
  forallb p ws = true -> stops p s ->
  k (prev_after prev ws) s caps = Some a ->
  exec (Star p) k prev (ws ++ s) caps = Some a.
Proof.
  intros Hws Hs H. simpl. apply star_take; [assumption|].
  now rewrite star_stop.
Qed.

Lemma exec_Plus p k d prev s caps a :
  d <> [] -> forallb p d = true -> stops p s ->
  k (prev_after prev d) s caps = Some a ->
  exec (Plus p) k prev (d ++ s) caps = Some a.
Proof.
  destruct d as [|c d]; [congruence|]. intros _ Hd Hs H.
  simpl in Hd. apply andb_true_iff in Hd as [Hc Hd].
  unfold Plus. cbn [exec app]. rewrite Hc.
  change (exec (Star p) k (Some c) (d ++ s) caps = Some a).
  now apply exec_Star.
Qed.
End ExecFacts.

(** ** The two patterns and the text of a declaration *)

Lemma matches_Lits l : forall prev w, matches (Lits l) prev w <-> w = l.
Proof.
  induction l as [|c l IH]; intros prev w; cbn [Lits matches].
  - reflexivity.
  - split.
    + intros (w1 & w2 & -> & -> & H). apply IH in H. now subst.
    + intros ->. exists [c], l. repeat split. now apply IH.
Qed.

Lemma matches_Plus p prev w :
  matches (Plus p) prev w -> w <> [] /\ forallb p w = true.
Proof.
  unfold Plus. cbn [matches].
  intros (w1 & w2 & -> & (c & -> & Hc) & Hw). split; [discriminate|].
  simpl. now rewrite Hc.
Qed.

Section ExecSteps.
Context {A : Type}.
Implicit Types (k : @cont A).

Lemma exec_Cat r1 r2 k prev s caps :
  exec (r1 ;; r2) k prev s caps = exec r1 (exec r2 k) prev s caps.
Proof. reflexivity. Qed.

Lemma exec_Grp n r k prev s caps :
  exec (Grp n r) k prev s caps
  = exec r (fun prev' s' caps' =>
              k prev' s' ((n, firstn (length s - length s') s) :: caps'))
         prev s caps.
Proof. reflexivity. Qed.

Lemma exec_Bol k prev s caps :
  at_bol prev = true -> exec Bol k prev s caps = k prev s caps.
Proof. simpl. now intros ->. Qed.
End ExecSteps.

Ltac stops_by_eval := simpl; reflexivity.
Ltac into := rewrite ?exec_Cat, ?exec_Grp, ?exec_Cat; cbn [app].
Ltac take_star := into; apply exec_Star; [assumption|stops_by_eval|].
Ltac take_plus := into; apply exec_Plus; [assumption|assumption|stops_by_eval|].
Ltac take_chr := into; rewrite exec_Chr.

Lemma try_at_pattern_complete prev ws1 ws2 d1 d2 d3 rest :
  at_bol prev = true -> decl_parts ws1 ws2 d1 d2 d3 ->
  try_at pattern prev (decl ws1 ws2 d1 d2 d3 ++ rest)
  = Some (rest, decl_caps ws1 ws2 d1 d2 d3).
Proof.
  intros Hb [H1 H2 [N1 D1] [N2 D2] [N3 D3]].
  unfold try_at, pattern, decl, decl_head, dotted.
  repeat rewrite <- app_assoc.
  into. rewrite (exec_Bol _ _ _ _ Hb).
  into. rewrite exec_Lits.
  take_star. take_chr. take_star. take_chr.
  take_plus. take_chr. take_plus. take_chr. take_plus. take_chr.
  unfold decl_caps, decl_head.
  rewrite (firstn_consumed [dquote] rest) by reflexivity.
  rewrite (firstn_consumed d3 (dquote :: rest)) by reflexivity.
  rewrite (firstn_consumed d2 (46 :: d3 ++ dquote :: rest)) by reflexivity.
  rewrite (firstn_consumed d1 (46 :: d2 ++ 46 :: d3 ++ dquote :: rest))
    by reflexivity.
  rewrite (firstn_consumed (lit "version" ++ ws1 ++ [61] ++ ws2 ++ [dquote])
             (d1 ++ 46 :: d2 ++ 46 :: d3 ++ dquote :: rest))
    by (repeat rewrite <- app_assoc; reflexivity).
  reflexivity.
Qed.

Lemma try_at_ver_pattern_complete prev ws1 ws2 d1 d2 d3 rest :
  at_bol prev = true -> decl_parts ws1 ws2 d1 d2 d3 ->
  try_at ver_pattern prev (decl ws1 ws2 d1 d2 d3 ++ rest)
  = Some (rest, [(1%nat, dotted d1 d2 d3)]).
Proof.
  intros Hb [H1 H2 [N1 D1] [N2 D2] [N3 D3]].
  unfold try_at, ver_pattern, decl, decl_head, dotted.
  repeat rewrite <- app_assoc.
  into. rewrite (exec_Bol _ _ _ _ Hb).
  into. rewrite exec_Lits.
  take_star. take_chr. take_star. take_chr.
  take_plus. take_chr. take_plus. take_chr. take_plus. take_chr.
  rewrite (firstn_consumed (d1 ++ [46] ++ d2 ++ [46] ++ d3) (dquote :: rest))
    by (repeat rewrite <- app_assoc; reflexivity).
  reflexivity.
Qed.

(** The words of both patterns are the declarations at the start of a line. *)
Lemma matches_pattern prev w :
  matches pattern prev w ->
  at_bol prev = true /\
  exists ws1 ws2 d1 d2 d3,
    decl_parts ws1 ws2 d1 d2 d3 /\ w = decl ws1 ws2 d1 d2 d3.
Proof.
  unfold pattern. cbn [matches].
  intros (w0 & w1 & -> & [-> Hb] & g1 & w2 & -> & G1 & g2 & w3 & -> & G2 &
          x1 & w4 & -> & -> & g3 & w5 & -> & G3 & x2 & w6 & -> & -> &
          g4 & g5 & -> & G4 & ->).
  destruct G1 as (v & w7 & -> & V & ws1 & w8 & -> & S1 & x3 & w9 & -> & -> &
                  ws2 & x4 & -> & S2 & ->).
  apply matches_Lits in V. subst v.
  apply matches_Plus in G2, G3, G4.
  split; [assumption|]. exists ws1, ws2, g2, g3, g4. split.
  - now constructor.
  - unfold decl, decl_head, dotted. now repeat rewrite <- app_assoc.
Qed.

Lemma matches_ver_pattern prev w :
  matches ver_pattern prev w ->
  at_bol prev = true /\
  exists ws1 ws2 d1 d2 d3,
    decl_parts ws1 ws2 d1 d2 d3 /\ w = decl ws1 ws2 d1 d2 d3.
Proof.
  unfold ver_pattern. cbn [matches].
  intros (w0 & w1 & -> & [-> Hb] & v & w2 & -> & V & ws1 & w3 & -> & S1 &
          x1 & w4 & -> & -> & ws2 & w5 & -> & S2 & x2 & w6 & -> & -> &
          g & x3 & -> & G & ->).
  destruct G as (g2 & w7 & -> & G2 & x4 & w8 & -> & -> & g3 & w9 & -> & G3 &
                 x5 & g4 & -> & -> & G4).
  apply matches_Lits in V. subst v.
  apply matches_Plus in G2, G3, G4.
  split; [assumption|]. exists ws1, ws2, g2, g3, g4. split.
  - now constructor.
  - unfold decl, decl_head, dotted. now repeat rewrite <- app_assoc.
Qed.

Lemma try_at_sound r prev s rest caps :
  try_at r prev s = Some (rest, caps) ->
  exists w, s = w ++ rest /\ matches r prev w.
Proof.
  unfold try_at. intros H.
  apply exec_sound in H as (w & s' & caps' & -> & Hw & H).
  injection H as -> _. eauto.
Qed.

Lemma try_at_pattern_sound prev s rest caps :
  try_at pattern prev s = Some (rest, caps) ->
  at_bol prev = true /\
  exists ws1 ws2 d1 d2 d3,
    decl_parts ws1 ws2 d1 d2 d3 /\ s = decl ws1 ws2 d1 d2 d3 ++ rest
    /\ caps = decl_caps ws1 ws2 d1 d2 d3.
Proof.
  intros H. destruct (try_at_sound _ _ _ _ _ H) as (w & -> & Hw).
  apply matches_pattern in Hw as (Hb & ws1 & ws2 & d1 & d2 & d3 & P & ->).
  split; [assumption|]. exists ws1, ws2, d1, d2, d3.
  rewrite (try_at_pattern_complete _ _ _ _ _ _ rest Hb P) in H.
  injection H as <-. auto.
Qed.

Lemma try_at_ver_pattern_sound prev s rest caps :
  try_at ver_pattern prev s = Some (rest, caps) ->
  at_bol prev = true /\
  exists ws1 ws2 d1 d2 d3,
    decl_parts ws1 ws2 d1 d2 d3 /\ s = decl ws1 ws2 d1 d2 d3 ++ rest
    /\ caps = [(1%nat, dotted d1 d2 d3)].
Proof.
  intros H. destruct (try_at_sound _ _ _ _ _ H) as (w & -> & Hw).
  apply matches_ver_pattern in Hw as (Hb & ws1 & ws2 & d1 & d2 & d3 & P & ->).
  split; [assumption|]. exists ws1, ws2, d1, d2, d3.
  rewrite (try_at_ver_pattern_complete _ _ _ _ _ _ rest Hb P) in H.
  injection H as <-. auto.
Qed.

(** ** search: the leftmost successful attempt *)

Lemma search_from_unfold r pre_rev s :
  search_from r pre_rev s
  = match try_at r (hd_error pre_rev) s with
    | Some (s', caps) =>
        Some (mkMatch (rev pre_rev) (firstn (length s - length s') s) s' caps)
    | None =>
        match s with
        | [] => None
        | c :: s' => search_from r (c :: pre_rev) s'
        end
    end.
Proof. destruct s; reflexivity. Qed.

Lemma search_from_here r pre_rev s rest caps :
  try_at r (hd_error pre_rev) s = Some (rest, caps) ->
  exists w, s = w ++ rest
            /\ search_from r pre_rev s
               = Some (mkMatch (rev pre_rev) w rest caps).
Proof.
  intros T. destruct (try_at_sound _ _ _ _ _ T) as (w & E & _).
  exists w. split; [assumption|].
  now rewrite search_from_unfold, T, (firstn_consumed w rest _ E).
Qed.

Lemma search_from_Some r : forall s pre_rev m,
  search_from r pre_rev s = Some m ->
  exists a w rest caps,
    s = a ++ w ++ rest
    /\ try_at r (prev_after (hd_error pre_rev) a) (w ++ rest) = Some (rest, caps)
    /\ (forall a1 a2, a = a1 ++ a2 -> a2 <> [] ->
        try_at r (prev_after (hd_error pre_rev) a1) (a2 ++ w ++ rest) = None)
    /\ m = mkMatch (rev pre_rev ++ a) w rest caps.
Proof.
  assert (Here : forall s pre_rev m rest caps,
             try_at r (hd_error pre_rev) s = Some (rest, caps) ->
             search_from r pre_rev s = Some m ->
             exists a w rest caps,
               s = a ++ w ++ rest
               /\ try_at r (prev_after (hd_error pre_rev) a) (w ++ rest)
                  = Some (rest, caps)
               /\ (forall a1 a2, a = a1 ++ a2 -> a2 <> [] ->
                   try_at r (prev_after (hd_error pre_rev) a1)
                     (a2 ++ w ++ rest) = None)
               /\ m = mkMatch (rev pre_rev ++ a) w rest caps).
  { intros s pre_rev m rest caps T H.
    destruct (search_from_here _ _ _ _ _ T) as (w & -> & E).
    rewrite E in H. injection H as <-.
    exists [], w, rest, caps. rewrite app_nil_r. repeat split; auto.
    intros a1 a2 E'. symmetry in E'. apply app_eq_nil in E' as [_ ->].
    congruence. }
  induction s as [|c s IH]; intros pre_rev m H.
  - destruct (try_at r (hd_error pre_rev) []) as [[rest caps]|] eqn:T; eauto.
    rewrite search_from_unfold, T in H. discriminate.
  - destruct (try_at r (hd_error pre_rev) (c :: s)) as [[rest caps]|] eqn:T;
      eauto.
    rewrite search_from_unfold, T in H.
    apply IH in H as (a & w & rest & caps & -> & Hw & Hn & ->).
    exists (c :: a), w, rest, caps. repeat split; auto.
    + intros [|c' a1] a2 E N; simpl in E.
      * subst a2. exact T.
      * injection E as <- ->. now apply Hn.
    + simpl. now rewrite <- app_assoc.
Qed.

Lemma search_from_intro r a : forall pre_rev w rest caps,
  try_at r (prev_after (hd_error pre_rev) a) (w ++ rest) = Some (rest, caps) ->
  (forall a1 a2, a = a1 ++ a2 -> a2 <> [] ->
   try_at r (prev_after (hd_error pre_rev) a1) (a2 ++ w ++ rest) = None) ->
  search_from r pre_rev (a ++ w ++ rest)
  = Some (mkMatch (rev pre_rev ++ a) w rest caps).
Proof.
  induction a as [|c a IH]; intros pre_rev w rest caps T Hn.
  - simpl in T. cbn [app].
    assert (E : search_from r pre_rev (w ++ rest)
                = Some (mkMatch (rev pre_rev)
                          (firstn (length (w ++ rest) - length rest) (w ++ rest))
                          rest caps)).
    { destruct (w ++ rest); cbn [search_from]; now rewrite T. }
    rewrite E, (firstn_consumed w rest), app_nil_r; reflexivity.
  - assert (T0 := Hn [] (c :: a) eq_refl ltac:(discriminate)).
    cbn [prev_after fold_left app] in T0.
    cbn [app]. rewrite search_from_unfold, T0.
    rewrite (IH (c :: pre_rev) w rest caps).
    + simpl. now rewrite <- app_assoc.
    + exact T.
    + intros a1 a2 E N. apply (Hn (c :: a1) a2); [now rewrite E|assumption].
Qed.

Lemma search_from_None r : forall s pre_rev,
  search_from r pre_rev s = None <->
  (forall a b, s = a ++ b -> try_at r (prev_after (hd_error pre_rev) a) b = None).
Proof.
  induction s as [|c s IH]; intros pre_rev; rewrite search_from_unfold.
  - destruct (try_at r (hd_error pre_rev) []) as [[rest caps]|] eqn:T.
    + split; [discriminate|]. intros H.
      specialize (H [] [] eq_refl). simpl in H. congruence.
    + split; [|reflexivity]. intros _ a b E. symmetry in E.
      apply app_eq_nil in E as [-> ->]. exact T.
  - destruct (try_at r (hd_error pre_rev) (c :: s)) as [[rest caps]|] eqn:T.
    + split; [discriminate|]. intros H.
      specialize (H [] (c :: s) eq_refl). simpl in H. congruence.
    + rewrite IH. split.
      * intros H [|c' a] b E; simpl in E.
        -- subst b. exact T.
        -- injection E as <- ->. now apply H.
      * intros H a b ->. now apply (H (c :: a) b).
Qed.

(** An attempt of either pattern succeeds exactly where a declaration starts. *)
Lemma try_at_pattern_None a b :
  try_at pattern (prev_after None a) b = None <-> ~ decl_at a b.
Proof.
  split.
  - intros H (Hb & ws1 & ws2 & d1 & d2 & d3 & rest & P & ->).
    now rewrite (try_at_pattern_complete _ _ _ _ _ _ rest Hb P) in H.
  - intros H. destruct (try_at pattern _ b) as [[rest caps]|] eqn:T;
      [|reflexivity].
    exfalso. apply H.
    apply try_at_pattern_sound in T as (Hb & ws1 & ws2 & d1 & d2 & d3 & P & -> & _).
    split; [assumption|]. now exists ws1, ws2, d1, d2, d3, rest.
Qed.

Lemma try_at_ver_pattern_None a b :
  try_at ver_pattern (prev_after None a) b = None <-> ~ decl_at a b.
Proof.
  split.
  - intros H (Hb & ws1 & ws2 & d1 & d2 & d3 & rest & P & ->).
    now rewrite (try_at_ver_pattern_complete _ _ _ _ _ _ rest Hb P) in H.
  - intros H. destruct (try_at ver_pattern _ b) as [[rest caps]|] eqn:T;
      [|reflexivity].
    exfalso. apply H.
    apply try_at_ver_pattern_sound in T
      as (Hb & ws1 & ws2 & d1 & d2 & d3 & P & -> & _).
    split; [assumption|]. now exists ws1, ws2, d1, d2, d3, rest.
Qed.

(** What [search pattern] returns: the first declaration of the text. *)
Lemma search_pattern_Some text m :
  search pattern text = Some m ->
  exists a ws1 ws2 d1 d2 d3 rest,
    decl_parts ws1 ws2 d1 d2 d3
    /\ text = a ++ decl ws1 ws2 d1 d2 d3 ++ rest
    /\ at_bol (prev_after None a) = true
    /\ no_earlier a (decl ws1 ws2 d1 d2 d3 ++ rest)
    /\ m = mkMatch a (decl ws1 ws2 d1 d2 d3) rest (decl_caps ws1 ws2 d1 d2 d3).
Proof.
  unfold search. intros H.
  apply search_from_Some in H as (a & w & rest & caps & -> & T & Hn & ->).
  cbn [hd_error] in *.
  destruct (try_at_pattern_sound _ _ _ _ T)
    as (Hb & ws1 & ws2 & d1 & d2 & d3 & P & E & ->).
  apply app_inv_tail in E. subst w.
  exists a, ws1, ws2, d1, d2, d3, rest.
  split; [assumption|]. split; [reflexivity|]. split; [assumption|].
  split; [|reflexivity].
  intros a1 a2 E N. apply try_at_pattern_None. now apply Hn.
Qed.

Lemma search_pattern_intro a ws1 ws2 d1 d2 d3 rest :
  decl_parts ws1 ws2 d1 d2 d3 ->
  at_bol (prev_after None a) = true ->
  no_earlier a (decl ws1 ws2 d1 d2 d3 ++ rest) ->
  search pattern (a ++ decl ws1 ws2 d1 d2 d3 ++ rest)
  = Some (mkMatch a (decl ws1 ws2 d1 d2 d3) rest (decl_caps ws1 ws2 d1 d2 d3)).
Proof.
  intros P Hb Hn. unfold search.
  rewrite (search_from_intro pattern a [] _ rest (decl_caps ws1 ws2 d1 d2 d3)).
  - reflexivity.
  - now apply try_at_pattern_complete.
  - intros a1 a2 E N. apply try_at_pattern_None. now apply Hn.
Qed.

Lemma search_ver_pattern_intro a ws1 ws2 d1 d2 d3 rest :
  decl_parts ws1 ws2 d1 d2 d3 ->
  at_bol (prev_after None a) = true ->
  no_earlier a (decl ws1 ws2 d1 d2 d3 ++ rest) ->
  search ver_pattern (a ++ decl ws1 ws2 d1 d2 d3 ++ rest)
  = Some (mkMatch a (decl ws1 ws2 d1 d2 d3) rest [(1%nat, dotted d1 d2 d3)]).
Proof.
  intros P Hb Hn. unfold search.
  rewrite (search_from_intro ver_pattern a [] _ rest [(1%nat, dotted d1 d2 d3)]).
  - reflexivity.
  - now apply try_at_ver_pattern_complete.
  - intros a1 a2 E N. apply try_at_ver_pattern_None. now apply Hn.
Qed.

Lemma search_pattern_None text :
  search pattern text = None <-> ~ has_decl text.
Proof.
  unfold search. rewrite search_from_None. cbn [hd_error]. split.
  - intros H (a & b & -> & D). revert D. apply try_at_pattern_None. now apply H.
  - intros H a b ->. apply try_at_pattern_None. intros D. apply H.
    now exists a, b.
Qed.

(** ** The first declaration stays the first one *)

Lemma forallb_not_v p ws :
  p 118 = false -> forallb p ws = true -> Forall (fun c => c <> 118) ws.
Proof.
  intros Hp H. apply Forall_forall. intros c Hc ->.
  rewrite forallb_forall in H. apply H in Hc. congruence.
Qed.

(** A declaration starts with the letter v and has no other v. *)
Lemma decl_one_v ws1 ws2 d1 d2 d3 :
  decl_parts ws1 ws2 d1 d2 d3 ->
  exists tl, decl ws1 ws2 d1 d2 d3 = 118 :: tl /\ Forall (fun c => c <> 118) tl.
Proof.
  intros [H1 H2 [_ D1] [_ D2] [_ D3]].
  exists (lit "ersion" ++ ws1 ++ [61] ++ ws2 ++ [dquote]
          ++ dotted d1 d2 d3 ++ [dquote]).
  split.
  - unfold decl, decl_head. now repeat rewrite <- app_assoc.
  - unfold dotted.
    repeat (apply Forall_app; split);
      try (eapply forallb_not_v; [|eassumption]; reflexivity);
      repeat constructor; discriminate.
Qed.

Lemma no_earlier_stable a x y :
  no_earlier a (118 :: x) -> no_earlier a (118 :: y).
Proof.
  intros H a1 a2 E N (Hb & ws1 & ws2 & d1 & d2 & d3 & rest & P & Eq).
  apply app_eq_app in Eq as [l [[E1 E2]|[E1 E2]]].
  - apply (H a1 a2 E N). split; [assumption|].
    exists ws1, ws2, d1, d2, d3, (l ++ 118 :: x).
    split; [assumption|]. now rewrite E1, <- app_assoc.
  - destruct l as [|c l].
    + rewrite app_nil_r in E1. apply (H a1 a2 E N). split; [assumption|].
      exists ws1, ws2, d1, d2, d3, (118 :: x). now rewrite E1.
    + injection E2 as <- _.
      destruct (decl_one_v _ _ _ _ _ P) as (tl & Etl & Ftl).
      rewrite Etl in E1. destruct a2 as [|c2 a2]; [congruence|].
      injection E1 as _ ->.
      apply Forall_app in Ftl as [_ F]. inversion F. congruence.
Qed.

Lemma no_earlier_decl a ws1 ws2 d1 d2 d3 rest ws1' ws2' d1' d2' d3' rest' :
  decl_parts ws1 ws2 d1 d2 d3 -> decl_parts ws1' ws2' d1' d2' d3' ->
  no_earlier a (decl ws1 ws2 d1 d2 d3 ++ rest) ->
  no_earlier a (decl ws1' ws2' d1' d2' d3' ++ rest').
Proof.
  intros P P'.
  destruct (decl_one_v _ _ _ _ _ P) as (tl & -> & _).
  destruct (decl_one_v _ _ _ _ _ P') as (tl' & -> & _).
  apply no_earlier_stable.
Qed.

(** ** Integers and their decimal text *)

Lemma value_snoc d c : value (d ++ [c]) = 10 * value d + digit_val c.
Proof. unfold value. now rewrite fold_left_app. Qed.

Lemma int_number d :
  number d -> int d = if short d then Ok (value d) else Raise ValueError.
Proof.
  intros [N D]. unfold int. destruct d; [congruence|]. now rewrite D.
Qed.

Lemma is_digit_small k : k < 10 -> is_digit (48 + k) = true.
Proof.
  intros H. unfold is_digit. apply andb_true_iff.
  split; apply N.leb_le; lia.
Qed.

Lemma value_single c : value [c] = digit_val c.
Proof. unfold value. cbn [fold_left]. lia. Qed.

Lemma digits_of_small n :
  n < 10 -> value [48 + n] = n /\ number [48 + n].
Proof.
  intros L. rewrite value_single. unfold digit_val, number.
  cbn [forallb]. rewrite (is_digit_small n L).
  repeat split; [lia|discriminate].
Qed.

Lemma digits_of_S f n :
  digits_of (S f) n
  = if n <? 10 then [48 + n] else digits_of f (n / 10) ++ [48 + n mod 10].
Proof. reflexivity. Qed.

Lemma digits_of_spec f : forall n,
  n < 2 ^ N.of_nat (S f) ->
  value (digits_of (S f) n) = n /\ number (digits_of (S f) n).
Proof.
  induction f as [|f IH]; intros n Hn; rewrite digits_of_S;
    destruct (N.ltb_spec n 10) as [L|L].
  - now apply digits_of_small.
  - change (2 ^ N.of_nat 1) with 2 in Hn. lia.
  - now apply digits_of_small.
  - assert (Hq : n / 10 < 2 ^ N.of_nat (S f)).
    { rewrite Nat2N.inj_succ, N.pow_succ_r' in Hn.
      apply N.Div0.div_lt_upper_bound. lia. }
    destruct (IH _ Hq) as [V [Nn D]].
    split.
    + rewrite value_snoc, V. unfold digit_val.
      rewrite (N.add_comm 48), N.add_sub.
      symmetry. apply N.Div0.div_mod.
    + split.
      * intros E. apply app_eq_nil in E as [_ E]. discriminate.
      * rewrite forallb_app, D. cbn [forallb andb].
        rewrite is_digit_small; [reflexivity|]. apply N.mod_lt. lia.
Qed.

Lemma decimal_spec n :
  value (decimal n) = n /\ number (decimal n).
Proof.
  unfold decimal. apply digits_of_spec.
  rewrite Nat2N.inj_succ, N2Nat.id.
  destruct n as [|p]; [reflexivity|].
  apply N.log2_spec. lia.
Qed.

Lemma short_decimal_small : short (decimal 0) = true.
Proof. reflexivity. Qed.

(** ** bump_version on a text whose first declaration is known *)

Lemma decl_parts_of_version ws1 ws2 x y z :
  forallb is_space ws1 = true -> forallb is_space ws2 = true ->
  decl_parts ws1 ws2 (decimal x) (decimal y) (decimal z).
Proof. intros H1 H2. constructor; auto; apply decimal_spec. Qed.

(** Printing the three numbers between group 1 and group 5. *)
Lemma print_triple (g1 g5 : str) x y z :
  (smajor <- str_of_int x ;;
   sminor <- str_of_int y ;;
   spatch <- str_of_int z ;;
   Ok (g1 ++ smajor ++ [46] ++ sminor ++ [46] ++ spatch ++ g5))
  = if prints (x, y, z)
    then Ok (g1 ++ decimal x ++ [46] ++ decimal y ++ [46] ++ decimal z ++ g5)
    else Raise ValueError.
Proof.
  unfold str_of_int, prints.
  destruct (short (decimal x)), (short (decimal y)), (short (decimal z));
    reflexivity.
Qed.

Lemma repl_decl part a ws1 ws2 d1 d2 d3 rest :
  decl_parts ws1 ws2 d1 d2 d3 ->
  repl part (mkMatch a (decl ws1 ws2 d1 d2 d3) rest (decl_caps ws1 ws2 d1 d2 d3))
  = if parses d1 d2 d3
       && prints (next_version part (value d1, value d2, value d3))
    then Ok (decl_of_version ws1 ws2
               (next_version part (value d1, value d2, value d3)))
    else Raise ValueError.
Proof.
  intros [_ _ N1 N2 N3]. unfold repl, group, parses.
  cbn [m_caps decl_caps lookup Nat.eqb bind].
  rewrite (int_number _ N1), (int_number _ N2), (int_number _ N3).
  destruct (short d1); [|reflexivity]. cbn [bind andb].
  destruct (short d2); [|reflexivity]. cbn [bind andb].
  destruct (short d3); [|reflexivity]. cbn [bind andb].
  unfold next_version.
  destruct (str_eqb part (lit "major")); [|destruct (str_eqb part (lit "minor"))];
    cbv beta iota; rewrite print_triple;
    match goal with |- context [prints ?v] => destruct (prints v) end;
    try reflexivity;
    cbn [decl_of_version]; unfold decl, dotted; now repeat rewrite <- app_assoc.
Qed.

Lemma bump_version_decl part a ws1 ws2 d1 d2 d3 rest :
  decl_parts ws1 ws2 d1 d2 d3 ->
  at_bol (prev_after None a) = true ->
  no_earlier a (decl ws1 ws2 d1 d2 d3 ++ rest) ->
  bump_version (a ++ decl ws1 ws2 d1 d2 d3 ++ rest) part
  = if parses d1 d2 d3
       && prints (next_version part (value d1, value d2, value d3))
    then Ok (a ++ decl_of_version ws1 ws2
                    (next_version part (value d1, value d2, value d3)) ++ rest,
             version_str (next_version part (value d1, value d2, value d3)))
    else Raise ValueError.
Proof.
  intros P Hb Hn. unfold bump_version, subn_count1.
  rewrite (search_pattern_intro _ _ _ _ _ _ _ P Hb Hn).
  rewrite (repl_decl part _ _ _ _ _ _ _ P).
  destruct (parses d1 d2 d3 && prints _); [|reflexivity].
  cbn [bind m_pre m_post Nat.eqb].
  destruct (next_version part (value d1, value d2, value d3)) as [[x y] z].
  cbn [decl_of_version version_str].
  destruct P as [H1 H2 N1 N2 N3].
  assert (P' := decl_parts_of_version ws1 ws2 x y z H1 H2).
  rewrite (search_ver_pattern_intro _ _ _ _ _ _ _ P' Hb).
  - reflexivity.
  - revert Hn. apply no_earlier_decl; [now constructor|assumption].
Qed.

(** After the bump the first declaration of the text is the rewritten one. *)
Lemma search_after_bump a ws1 ws2 d1 d2 d3 rest v :
  decl_parts ws1 ws2 d1 d2 d3 ->
  at_bol (prev_after None a) = true ->
  no_earlier a (decl ws1 ws2 d1 d2 d3 ++ rest) ->
  search pattern (a ++ decl_of_version ws1 ws2 v ++ rest)
  = Some (mkMatch a (decl_of_version ws1 ws2 v) rest
            (let '(x, y, z) := v in
             decl_caps ws1 ws2 (decimal x) (decimal y) (decimal z))).
Proof.
  intros P Hb Hn. destruct v as [[x y] z]. cbn [decl_of_version].
  assert (P' := decl_parts_of_version ws1 ws2 x y z (parts_ws1 _ _ _ _ _ P)
                  (parts_ws2 _ _ _ _ _ P)).
  apply search_pattern_intro; [assumption|assumption|].
  revert Hn. now apply no_earlier_decl.
Qed.

Lemma parse_version_decl a ws1 ws2 d1 d2 d3 rest :
  decl_parts ws1 ws2 d1 d2 d3 ->
  at_bol (prev_after None a) = true ->
  no_earlier a (decl ws1 ws2 d1 d2 d3 ++ rest) ->
  parse_version (a ++ decl ws1 ws2 d1 d2 d3 ++ rest)
  = if parses d1 d2 d3 then Some (value d1, value d2, value d3) else None.
Proof.
  intros P Hb Hn. unfold parse_version, parses.
  rewrite (search_pattern_intro _ _ _ _ _ _ _ P Hb Hn).
  destruct P as [_ _ N1 N2 N3]. unfold group.
  cbn [m_caps decl_caps lookup Nat.eqb bind].
  rewrite (int_number _ N1), (int_number _ N2), (int_number _ N3).
  destruct (short d1), (short d2), (short d3); reflexivity.
Qed.

Lemma count_from_0 r : forall s pre_rev,
  count_from r pre_rev s = 0%nat <-> search_from r pre_rev s = None.
Proof.
  induction s as [|c s IH]; intros pre_rev; rewrite search_from_unfold;
    cbn [count_from]; destruct (try_at r (hd_error pre_rev) _) as [[? ?]|];
    try (split; [lia|discriminate]).
  - split; reflexivity.
  - cbn [Nat.add]. apply IH.
Qed.

Lemma count_decls_search text :
  (1 <= count_decls text)%nat -> exists m, search pattern text = Some m.
Proof.
  unfold count_decls, search. intros H.
  destruct (search_from pattern [] text) as [m|] eqn:E; [eauto|].
  apply count_from_0 in E. lia.
Qed.

(** ** Properties of bump_version and main *)

Lemma parse_version_inv text v :
  parse_version text = Some v ->
  exists a ws1 ws2 d1 d2 d3 rest,
    decl_parts ws1 ws2 d1 d2 d3
    /\ text = a ++ decl ws1 ws2 d1 d2 d3 ++ rest
    /\ at_bol (prev_after None a) = true
    /\ no_earlier a (decl ws1 ws2 d1 d2 d3 ++ rest)
    /\ parses d1 d2 d3 = true
    /\ v = (value d1, value d2, value d3).
Proof.
  intros H. pose proof H as H'. unfold parse_version in H'.
  destruct (search pattern text) as [m|] eqn:S; [|discriminate].
  clear H'. apply search_pattern_Some in S
    as (a & ws1 & ws2 & d1 & d2 & d3 & rest & P & -> & Hb & Hn & ->).
  exists a, ws1, ws2, d1, d2, d3, rest.
  rewrite (parse_version_decl _ _ _ _ _ _ _ P Hb Hn) in H.
  destruct (parses d1 d2 d3); [|discriminate]. injection H as <-.
  repeat (split; [assumption || reflexivity|]). reflexivity.
Qed.

Lemma parses_of_version v : (let '(x, y, z) := v in
                              parses (decimal x) (decimal y) (decimal z))
                             = prints v.
Proof. now destruct v as [[x y] z]. Qed.

Lemma parse_version_of_version a ws1 ws2 d1 d2 d3 rest v :
  decl_parts ws1 ws2 d1 d2 d3 ->
  at_bol (prev_after None a) = true ->
  no_earlier a (decl ws1 ws2 d1 d2 d3 ++ rest) ->
  prints v = true ->
  parse_version (a ++ decl_of_version ws1 ws2 v ++ rest) = Some v.
Proof.
  intros P Hb Hn Hv. destruct v as [[x y] z]. cbn [decl_of_version].
  assert (P' := decl_parts_of_version ws1 ws2 x y z (parts_ws1 _ _ _ _ _ P)
                  (parts_ws2 _ _ _ _ _ P)).
  rewrite (parse_version_decl _ _ _ _ _ _ _ P' Hb).
  - change (parses (decimal x) (decimal y) (decimal z)) with (prints (x, y, z)).
    rewrite Hv. now rewrite !(proj1 (decimal_spec _)).
  - revert Hn. now apply no_earlier_decl.
Qed.

Lemma has_decl_search text :
  has_decl text <-> exists m, search pattern text = Some m.
Proof.
  split.
  - intros H. destruct (search pattern text) as [m|] eqn:S; [eauto|].
    apply search_pattern_None in S. contradiction.
  - intros [m S]. apply search_pattern_Some in S
      as (a & ws1 & ws2 & d1 & d2 & d3 & rest & P & -> & Hb & _ & _).
    exists a, (decl ws1 ws2 d1 d2 d3 ++ rest). split; [reflexivity|].
    split; [assumption|]. now exists ws1, ws2, d1, d2, d3, rest.
Qed.

(** What [bump_version] does with the text, by cases on [search]: without a
    match the could-not-find error; with a match the rewritten text, or
    [ValueError] when a number is beyond the digit limit. *)
Lemma bump_version_cases text part :
  (search pattern text = None
   /\ bump_version text part = Raise (RuntimeError not_found_msg))
  \/ (exists a ws1 ws2 d1 d2 d3 rest,
        decl_parts ws1 ws2 d1 d2 d3
        /\ text = a ++ decl ws1 ws2 d1 d2 d3 ++ rest
        /\ at_bol (prev_after None a) = true
        /\ no_earlier a (decl ws1 ws2 d1 d2 d3 ++ rest)
        /\ search pattern text
           = Some (mkMatch a (decl ws1 ws2 d1 d2 d3) rest
                     (decl_caps ws1 ws2 d1 d2 d3))
        /\ bump_version text part
           = if parses d1 d2 d3
                && prints (next_version part (value d1, value d2, value d3))
             then Ok (a ++ decl_of_version ws1 ws2
                             (next_version part (value d1, value d2, value d3))
                        ++ rest,
                      version_str
                        (next_version part (value d1, value d2, value d3)))
             else Raise ValueError).
Proof.
  destruct (search pattern text) as [m|] eqn:S.
  - right. pose proof S as S'. apply search_pattern_Some in S'
      as (a & ws1 & ws2 & d1 & d2 & d3 & rest & P & -> & Hb & Hn & ->).
    exists a, ws1, ws2, d1, d2, d3, rest.
    repeat (split; [assumption || reflexivity|]).
    now apply bump_version_decl.
  - left. split; [reflexivity|]. unfold bump_version, subn_count1.
    now rewrite S.
Qed.

(** A bump that returns: the first declaration, within the digit limit
    before and after, and the text returned. *)
Lemma bump_version_Ok_inv text part new_text new_version :
  bump_version text part = Ok (new_text, new_version) ->
  exists a ws1 ws2 d1 d2 d3 rest v',
    decl_parts ws1 ws2 d1 d2 d3
    /\ text = a ++ decl ws1 ws2 d1 d2 d3 ++ rest
    /\ at_bol (prev_after None a) = true
    /\ no_earlier a (decl ws1 ws2 d1 d2 d3 ++ rest)
    /\ v' = next_version part (value d1, value d2, value d3)
    /\ parses d1 d2 d3 = true /\ prints v' = true
    /\ new_text = a ++ decl_of_version ws1 ws2 v' ++ rest
    /\ new_version = version_str v'.
Proof.
  intros B.
  destruct (bump_version_cases text part)
    as [[_ B']|(a & ws1 & ws2 & d1 & d2 & d3 & rest & P & E & Hb & Hn & _ & B')];
    [congruence|].
  remember (next_version part (value d1, value d2, value d3)) as v' eqn:Ev.
  rewrite B' in B.
  destruct (parses d1 d2 d3) eqn:Hp; [|discriminate].
  destruct (prints v') eqn:Hv; [|discriminate].
  cbn [andb] in B. injection B as <- <-.
  exists a, ws1, ws2, d1, d2, d3, rest, v'.
  repeat (split; [assumption || reflexivity|]). reflexivity.
Qed.

(** A bump within the digit limit returns. *)
Lemma bump_version_within part a ws1 ws2 d1 d2 d3 rest :
  decl_parts ws1 ws2 d1 d2 d3 ->
  at_bol (prev_after None a) = true ->
  no_earlier a (decl ws1 ws2 d1 d2 d3 ++ rest) ->
  parses d1 d2 d3 = true ->
  prints (next_version part (value d1, value d2, value d3)) = true ->
  bump_version (a ++ decl ws1 ws2 d1 d2 d3 ++ rest) part
  = Ok (a ++ decl_of_version ws1 ws2
               (next_version part (value d1, value d2, value d3)) ++ rest,
        version_str (next_version part (value d1, value d2, value d3))).
Proof.
  intros P Hb Hn Hp Hv. rewrite (bump_version_decl part _ _ _ _ _ _ _ P Hb Hn).
  now rewrite Hp, Hv.
Qed.


(** ** The number of declarations *)

Lemma prev_after_decl prev x ws1 ws2 d1 d2 d3 q :
  prev_after prev (x ++ decl ws1 ws2 d1 d2 d3 ++ q)
  = prev_after (Some dquote) q.
Proof.
  rewrite !prev_after_app. unfold decl.
  now rewrite app_assoc, prev_after_snoc.
Qed.

Lemma hd_error_rev (l : str) : hd_error (rev l) = prev_after None l.
Proof.
  destruct l as [|c l] using rev_ind; [reflexivity|].
  now rewrite rev_app_distr, prev_after_snoc.
Qed.

Lemma count_from_hd r : forall s p1 p2,
  hd_error p1 = hd_error p2 -> count_from r p1 s = count_from r p2 s.
Proof.
  induction s as [|c s IH]; intros p1 p2 H; cbn [count_from]; rewrite H;
    [reflexivity|].
  f_equal. now apply IH.
Qed.

Lemma count_from_skip r s : forall x pre_rev,
  (forall x1 x2, x = x1 ++ x2 -> x2 <> [] ->
   try_at r (prev_after (hd_error pre_rev) x1) (x2 ++ s) = None) ->
  count_from r pre_rev (x ++ s) = count_from r (rev x ++ pre_rev) s.
Proof.
  induction x as [|c x IH]; intros pre_rev H; [reflexivity|].
  assert (T := H [] (c :: x) eq_refl ltac:(discriminate)).
  cbn [prev_after fold_left app] in T.
  cbn [app count_from]. rewrite T. cbn [Nat.add].
  rewrite (IH (c :: pre_rev)).
  - cbn [rev]. now rewrite <- app_assoc.
  - intros x1 x2 E N. apply (H (c :: x1) x2); [now rewrite E|assumption].
Qed.

Lemma try_at_pattern_head prev s r :
  try_at pattern prev s = Some r -> exists tl, s = 118 :: tl.
Proof.
  destruct r as [rest caps]. intros T.
  apply try_at_pattern_sound in T as (_ & ws1 & ws2 & d1 & d2 & d3 & P & -> & _).
  destruct (decl_one_v _ _ _ _ _ P) as (tl & -> & _). now exists (tl ++ rest).
Qed.

(** The declarations of a text are its first one and those of what follows
    the closing quote of the first one. *)
Lemma count_decls_decl a ws1 ws2 d1 d2 d3 rest :
  decl_parts ws1 ws2 d1 d2 d3 ->
  at_bol (prev_after None a) = true ->
  no_earlier a (decl ws1 ws2 d1 d2 d3 ++ rest) ->
  count_decls (a ++ decl ws1 ws2 d1 d2 d3 ++ rest)
  = S (count_from pattern [dquote] rest).
Proof.
  intros P Hb Hn. unfold count_decls.
  rewrite count_from_skip.
  2:{ intros x1 x2 E N. apply try_at_pattern_None. now apply Hn. }
  rewrite app_nil_r.
  assert (T := try_at_pattern_complete (hd_error (rev a)) _ _ _ _ _ rest
                 ltac:(now rewrite hd_error_rev) P).
  destruct (decl_one_v _ _ _ _ _ P) as (tl & Etl & Ftl).
  assert (Last : hd_error (rev tl ++ 118 :: rev a) = Some dquote).
  { replace (rev tl ++ 118 :: rev a) with (rev (a ++ decl ws1 ws2 d1 d2 d3)).
    - rewrite hd_error_rev, <- (app_nil_r (decl ws1 ws2 d1 d2 d3)).
      now rewrite prev_after_decl.
    - rewrite Etl, rev_app_distr. cbn [rev]. now rewrite <- app_assoc. }
  rewrite Etl in *. cbn [app] in T. cbn [app count_from]. rewrite T.
  cbn [Nat.add]. f_equal.
  rewrite count_from_skip.
  - now apply count_from_hd.
  - intros x1 x2 E N.
    destruct (try_at pattern _ (x2 ++ rest)) as [r|] eqn:T'; [|reflexivity].
    exfalso. apply try_at_pattern_head in T' as [tl' E'].
    destruct x2 as [|c x2]; [congruence|]. injection E' as -> _.
    rewrite E in Ftl. apply Forall_app in Ftl as [_ F]. inversion F.
    congruence.
Qed.

(** ** At the digit limit *)

Lemma overflow_parts : decl_parts [32] [32] nines (lit "0") (lit "0").
Proof. repeat split; try discriminate; vm_compute; reflexivity. Qed.

Lemma nines_parse : parses nines (lit "0") (lit "0") = true.
Proof. vm_compute. reflexivity. Qed.

(** One more than 4300 nines has 4301 digits. *)
Lemma nines_succ_unprintable : short (decimal (value nines + 1)) = false.
Proof. vm_compute. reflexivity. Qed.

(** A major bump of a declaration whose major number is 4300 nines raises
    [ValueError], wherever the declaration stands as the first one. *)
Lemma overflow_raises a rest :
  at_bol (prev_after None a) = true ->
  no_earlier a (overflow_sample ++ rest) ->
  bump_version (a ++ overflow_sample ++ rest) (lit "major") = Raise ValueError.
Proof.
  intros Hb Hn. unfold overflow_sample in *.
  rewrite (bump_version_decl _ _ _ _ _ _ _ _ overflow_parts Hb Hn).
  rewrite nines_parse. change (next_version (lit "major")
                                 (value nines, value (lit "0"), value (lit "0")))
    with (value nines + 1, 0, 0).
  unfold prints. now rewrite nines_succ_unprintable.
Qed.

Lemma overflow_repl a rest :
  repl (lit "major")
    (mkMatch a overflow_sample rest
       (decl_caps [32] [32] nines (lit "0") (lit "0")))
  = Raise ValueError.
Proof.
  unfold overflow_sample.
  rewrite (repl_decl (lit "major") a [32] [32] nines (lit "0") (lit "0") rest
             overflow_parts).
  rewrite nines_parse.
  change (next_version (lit "major")
            (value nines, value (lit "0"), value (lit "0")))
    with (value nines + 1, 0, 0).
  unfold prints. now rewrite nines_succ_unprintable.
Qed.

Lemma no_earlier_nil b : no_earlier [] b.
Proof.
  intros a1 a2 E N. symmetry in E. apply app_eq_nil in E as [_ ->]. congruence.
Qed.

Lemma overflow_sample_raises :
  bump_version overflow_sample (lit "major") = Raise ValueError.
Proof.
  rewrite <- (app_nil_r overflow_sample).
  apply (overflow_raises [] []); [reflexivity|apply no_earlier_nil].
Qed.

Lemma overflow_sample_search :
  search pattern overflow_sample
  = Some (mkMatch [] overflow_sample []
            (decl_caps [32] [32] nines (lit "0") (lit "0"))).
Proof.
  rewrite <- (app_nil_r overflow_sample) at 1.
  apply (search_pattern_intro [] _ _ _ _ _ [] overflow_parts);
    [reflexivity|apply no_earlier_nil].
Qed.

Lemma overflow_sample_parse :
  parse_version overflow_sample = Some (value nines, 0, 0).
Proof.
  pose proof (parse_version_decl [] _ _ _ _ _ [] overflow_parts eq_refl
                (no_earlier_nil _)) as H.
  cbn [app] in H. rewrite app_nil_r, nines_parse in H. exact H.
Qed.

Lemma overflow_sample_count : count_decls overflow_sample = 1%nat.
Proof.
  pose proof (count_decls_decl [] _ _ _ _ _ [] overflow_parts eq_refl
                (no_earlier_nil _)) as H.
  cbn [app] in H. rewrite app_nil_r in H. exact H.
Qed.

(** C1 (amended).  When the first declaration of the text reads (X, Y, Z)
    and the three numbers of the incremented version have at most 4300
    digits each, [bump_version] returns the text in which that same
    declaration (same place, same head) reads (X+1, 0, 0) for major,
    (X, Y+1, 0) for minor and (X, Y, Z+1) for patch; a manifest with
    version = 1.2.3 gives 1.2.4, 1.3.0 and 2.0.0. *)
Theorem C1_bump_increments :
  (forall text X Y Z,
     parse_version text = Some (X, Y, Z) ->
     exists a ws1 ws2 d1 d2 d3 rest,
       text = a ++ decl ws1 ws2 d1 d2 d3 ++ rest
       /\ search pattern text
          = Some (mkMatch a (decl ws1 ws2 d1 d2 d3) rest
                    (decl_caps ws1 ws2 d1 d2 d3))
       /\ forall part v',
            (part = lit "major" /\ v' = (X + 1, 0, 0))
            \/ (part = lit "minor" /\ v' = (X, Y + 1, 0))
            \/ (part = lit "patch" /\ v' = (X, Y, Z + 1)) ->
            prints v' = true ->
            bump_version text part
            = Ok (a ++ decl_of_version ws1 ws2 v' ++ rest, version_str v')
            /\ (exists caps,
                  search pattern (a ++ decl_of_version ws1 ws2 v' ++ rest)
                  = Some (mkMatch a (decl_of_version ws1 ws2 v') rest caps))
            /\ parse_version (a ++ decl_of_version ws1 ws2 v' ++ rest)
               = Some v')
  /\ bump_version (sample "1.2.3") (lit "patch")
     = Ok (sample "1.2.4", lit "1.2.4")
  /\ bump_version (sample "1.2.3") (lit "minor")
     = Ok (sample "1.3.0", lit "1.3.0")
  /\ bump_version (sample "1.2.3") (lit "major")
     = Ok (sample "2.0.0", lit "2.0.0").
Proof.
  split; [|repeat split; vm_compute; reflexivity].
  intros text X Y Z H.
  apply parse_version_inv in H
    as (a & ws1 & ws2 & d1 & d2 & d3 & rest & P & -> & Hb & Hn & Hp & E).
  injection E as -> -> ->.
  exists a, ws1, ws2, d1, d2, d3, rest.
  split; [reflexivity|]. split; [now apply search_pattern_intro|].
  intros part v' Hpart Hv.
  assert (Ev : v' = next_version part (value d1, value d2, value d3)).
  { destruct Hpart as [[-> ->]|[[-> ->]|[-> ->]]]; reflexivity. }
  rewrite Ev in *. split; [now apply bump_version_within|]. split.
  - eexists. now apply search_after_bump with (d1 := d1) (d2 := d2) (d3 := d3).
  - now apply parse_version_of_version with (d1 := d1) (d2 := d2) (d3 := d3).
Qed.

Lemma C1_bump_increments_witness :
  exists a ws1 ws2 d1 d2 d3 rest,
    sample "0.9.41" = a ++ decl ws1 ws2 d1 d2 d3 ++ rest
    /\ search pattern (sample "0.9.41")
       = Some (mkMatch a (decl ws1 ws2 d1 d2 d3) rest
                 (decl_caps ws1 ws2 d1 d2 d3))
    /\ forall part v',
         (part = lit "major" /\ v' = (0 + 1, 0, 0))
         \/ (part = lit "minor" /\ v' = (0, 9 + 1, 0))
         \/ (part = lit "patch" /\ v' = (0, 9, 41 + 1)) ->
         prints v' = true ->
         bump_version (sample "0.9.41") part
         = Ok (a ++ decl_of_version ws1 ws2 v' ++ rest, version_str v')
         /\ (exists caps,
               search pattern (a ++ decl_of_version ws1 ws2 v' ++ rest)
               = Some (mkMatch a (decl_of_version ws1 ws2 v') rest caps))
         /\ parse_version (a ++ decl_of_version ws1 ws2 v' ++ rest) = Some v'.
Proof.
  apply (proj1 C1_bump_increments (sample "0.9.41") 0 9 41).
  vm_compute. reflexivity.
Defined.

(** C1 as first stated fails at the digit limit: the declaration with 4300
    nines as major number parses, and the major bump raises [ValueError]
    instead of returning a text. *)
Lemma C1_counterexample :
  parse_version overflow_sample = Some (value nines, 0, 0)
  /\ bump_version overflow_sample (lit "major") = Raise ValueError.
Proof. split; [apply overflow_sample_parse|apply overflow_sample_raises]. Qed.

(** A declaration may run over several lines: the white space around the
    equals sign may contain line feeds. *)
Example decl_spans_lines :
  bump_version (lit "version =" ++ [newline] ++ quoted "1.2.3") (lit "patch")
  = Ok (lit "version =" ++ [newline] ++ quoted "1.2.4", lit "1.2.4").
Proof. vm_compute. reflexivity. Qed.

(** C2 (amended).  [bump_version] raises the error with the could-not-find
    message exactly when the pattern matches at no line start of the text,
    that is when the text has no declaration (a declaration may run over
    line feeds).  When there is a match the three groups are runs of digits;
    [bump_version] then returns when the numbers read and the numbers
    printed are within the digit limit, and raises [ValueError] otherwise.
    No other exception can come out. *)
Theorem C2_error_iff_no_declaration (text part : str) :
  (bump_version text part = Raise (RuntimeError not_found_msg)
   <-> search pattern text = None)
  /\ (search pattern text = None <-> ~ has_decl text)
  /\ (forall m, search pattern text = Some m ->
        exists g2 g3 g4,
          group m 2 = Ok g2 /\ group m 3 = Ok g3 /\ group m 4 = Ok g4
          /\ number g2 /\ number g3 /\ number g4
          /\ (parses g2 g3 g4
              && prints (next_version part (value g2, value g3, value g4))
              = true ->
              exists new_text new_version,
                bump_version text part = Ok (new_text, new_version))
          /\ (parses g2 g3 g4
              && prints (next_version part (value g2, value g3, value g4))
              = false ->
              bump_version text part = Raise ValueError))
  /\ (forall e, bump_version text part = Raise e ->
        (e = RuntimeError not_found_msg /\ ~ has_decl text)
        \/ (e = ValueError /\ has_decl text)).
Proof.
  split; [|split; [apply search_pattern_None|split]].
  - destruct (bump_version_cases text part)
      as [[S B]|(a & ws1 & ws2 & d1 & d2 & d3 & rest & _ & _ & _ & _ & S & B)];
      rewrite S, B; split; intros H; try congruence.
    destruct (parses d1 d2 d3 && prints _); discriminate.
  - intros m S.
    destruct (bump_version_cases text part)
      as [[S' _]|(a & ws1 & ws2 & d1 & d2 & d3 & rest & P & _ & _ & _ & S' & B)];
      [congruence|].
    rewrite S' in S. injection S as <-.
    destruct P as [_ _ N1 N2 N3]. exists d1, d2, d3.
    repeat (split; [reflexivity || assumption|]).
    split; intros H; rewrite H in B; eauto.
  - intros e B.
    destruct (bump_version_cases text part)
      as [[S B']|(a & ws1 & ws2 & d1 & d2 & d3 & rest & _ & _ & _ & _ & S & B')];
      rewrite B' in B.
    + injection B as <-. left. split; [reflexivity|].
      now apply search_pattern_None.
    + destruct (parses d1 d2 d3 && prints _); [discriminate|].
      injection B as <-. right. split; [reflexivity|].
      apply has_decl_search. eauto.
Qed.

(** C2 as first stated fails twice.  A text with a match can make
    [bump_version] raise [ValueError], an error other than the
    could-not-find one; and no line of a text may match, taken alone, while
    [bump_version] succeeds, because a match may run over a line feed. *)
Lemma C2_counterexample :
  ((exists m, search pattern overflow_sample = Some m)
   /\ bump_version overflow_sample (lit "major") = Raise ValueError)
  /\ (existsb line_declares
        (lines (lit "version =" ++ [newline] ++ quoted "1.2.3")) = false
      /\ bump_version (lit "version =" ++ [newline] ++ quoted "1.2.3")
           (lit "patch")
         = Ok (lit "version =" ++ [newline] ++ quoted "1.2.4", lit "1.2.4")).
Proof.
  split; split.
  - eexists. apply overflow_sample_search.
  - apply overflow_sample_raises.
  - vm_compute. reflexivity.
  - apply decl_spans_lines.
Qed.

Lemma next_version_gt part v : ver_lt v (next_version part v).
Proof.
  destruct v as [[x y] z]. unfold next_version, ver_lt.
  destruct (str_eqb part (lit "major")); [lia|].
  destruct (str_eqb part (lit "minor")); [right|right]; split; try reflexivity.
  - left. lia.
  - right. split; [reflexivity|lia].
Qed.

(** C3 (amended).  On a text with exactly one declaration, whose numbers
    parse, for patch, minor and major alike, when the numbers of the
    incremented version have at most 4300 digits each, the version read back
    from the text [bump_version] returns is strictly greater, in (major,
    minor, patch) order, than the version of the input. *)
Theorem C3_bump_strictly_greater (text part : str) (v : N * N * N) :
  count_decls text = 1%nat ->
  In part [lit "patch"; lit "minor"; lit "major"] ->
  parse_version text = Some v ->
  prints (next_version part v) = true ->
  exists new_text new_version v',
    bump_version text part = Ok (new_text, new_version)
    /\ parse_version new_text = Some v'
    /\ ver_lt v v'.
Proof.
  intros _ _ H Hv.
  apply parse_version_inv in H
    as (a & ws1 & ws2 & d1 & d2 & d3 & rest & P & -> & Hb & Hn & Hp & ->).
  do 2 eexists. exists (next_version part (value d1, value d2, value d3)).
  split; [now apply bump_version_within|].
  split; [|apply next_version_gt].
  now apply parse_version_of_version with (d1 := d1) (d2 := d2) (d3 := d3).
Qed.

Lemma C3_bump_strictly_greater_witness :
  exists new_text new_version v',
    bump_version (sample "3.14.159") (lit "minor")
    = Ok (new_text, new_version)
    /\ parse_version new_text = Some v'
    /\ ver_lt (3, 14, 159) v'.
Proof.
  apply (C3_bump_strictly_greater (sample "3.14.159") (lit "minor")
           (3, 14, 159)).
  - vm_compute. reflexivity.
  - simpl. auto.
  - vm_compute. reflexivity.
  - vm_compute. reflexivity.
Defined.

(** C3 as first stated fails at the digit limit: a text with exactly one
    declaration on which the major bump returns no text at all. *)
Lemma C3_counterexample :
  count_decls overflow_sample = 1%nat
  /\ In (lit "major") [lit "patch"; lit "minor"; lit "major"]
  /\ bump_version overflow_sample (lit "major") = Raise ValueError.
Proof.
  split; [apply overflow_sample_count|]. split; [simpl; auto|].
  apply overflow_sample_raises.
Qed.

(** C4 (amended).  When the text has a declaration whose numbers parse and
    the numbers of the incremented version have at most 4300 digits each,
    [subn] reports one replacement and the text returned is the input with
    the span of the first match replaced: what is before the match and what
    is after it are the same lists of characters in the input and in the
    output. *)
Theorem C4_outside_first_match_unchanged
  (text part : str) (m : Match) (v : N * N * N) :
  search pattern text = Some m ->
  parse_version text = Some v ->
  prints (next_version part v) = true ->
  exists new new_version,
    text = m_pre m ++ m_whole m ++ m_post m
    /\ subn_count1 pattern (repl part) text
       = Ok (m_pre m ++ new ++ m_post m, 1%nat)
    /\ bump_version text part
       = Ok (m_pre m ++ new ++ m_post m, new_version).
Proof.
  intros S H Hv.
  apply parse_version_inv in H
    as (a & ws1 & ws2 & d1 & d2 & d3 & rest & P & -> & Hb & Hn & Hp & ->).
  rewrite (search_pattern_intro _ _ _ _ _ _ _ P Hb Hn) in S.
  injection S as <-. cbn [m_pre m_whole m_post].
  do 2 eexists. split; [reflexivity|]. split.
  - unfold subn_count1.
    rewrite (search_pattern_intro _ _ _ _ _ _ _ P Hb Hn),
      (repl_decl part _ _ _ _ _ _ _ P), Hp, Hv.
    reflexivity.
  - now apply bump_version_within.
Qed.

Lemma C4_outside_first_match_unchanged_witness :
  exists new new_version,
    sample "1.2.3"
    = lit "[project]" ++ [newline] ++ lit "name = " ++ quoted "geg" ++ [newline]
      ++ (lit "version = " ++ quoted "1.2.3")
      ++ [newline] ++ lit "requires-python = " ++ quoted ">=3.9" ++ [newline]
    /\ subn_count1 pattern (repl (lit "major")) (sample "1.2.3")
       = Ok (lit "[project]" ++ [newline] ++ lit "name = " ++ quoted "geg"
             ++ [newline] ++ new
             ++ [newline] ++ lit "requires-python = " ++ quoted ">=3.9"
             ++ [newline], 1%nat)
    /\ bump_version (sample "1.2.3") (lit "major")
       = Ok (lit "[project]" ++ [newline] ++ lit "name = " ++ quoted "geg"
             ++ [newline] ++ new
             ++ [newline] ++ lit "requires-python = " ++ quoted ">=3.9"
             ++ [newline], new_version).
Proof.
  apply (C4_outside_first_match_unchanged (sample "1.2.3") (lit "major")
           (mkMatch
              (lit "[project]" ++ [newline] ++ lit "name = " ++ quoted "geg"
               ++ [newline])
              (lit "version = " ++ quoted "1.2.3")
              ([newline] ++ lit "requires-python = " ++ quoted ">=3.9"
               ++ [newline])
              (decl_caps [32] [32] (lit "1") (lit "2") (lit "3")))
           (1, 2, 3)); vm_compute; reflexivity.
Defined.

(** C4 as first stated fails at the digit limit: the text has a declaration
    and the major bump makes no replacement and returns no text. *)
Lemma C4_counterexample :
  (exists m, search pattern overflow_sample = Some m)
  /\ subn_count1 pattern (repl (lit "major")) overflow_sample
     = Raise ValueError
  /\ bump_version overflow_sample (lit "major") = Raise ValueError.
Proof.
  split; [eexists; apply overflow_sample_search|].
  split; [|apply overflow_sample_raises].
  unfold subn_count1. rewrite overflow_sample_search, overflow_repl.
  reflexivity.
Qed.

(** A text with two declarations. *)
Example two_declarations :
  count_decls (sample "1.2.3" ++ sample "7.8.9") = 2%nat.
Proof. vm_compute. reflexivity. Qed.

(** C5 (amended).  When the pattern matches at two or more places, the
    numbers of the first declaration parse and the numbers of the
    incremented version have at most 4300 digits each, [bump_version] does
    not fail and rewrites the first match only: every other place where the
    pattern matches lies after the first match, and in the output the same
    declaration stands there, matched with the same groups. *)
Theorem C5_later_declarations_untouched (text part : str) (v : N * N * N) :
  (2 <= count_decls text)%nat ->
  parse_version text = Some v ->
  prints (next_version part v) = true ->
  exists m new new_version,
    search pattern text = Some m
    /\ bump_version text part = Ok (m_pre m ++ new ++ m_post m, new_version)
    /\ forall a b rest caps,
         text = a ++ b -> a <> m_pre m ->
         try_at pattern (prev_after None a) b = Some (rest, caps) ->
         exists q,
           a = m_pre m ++ m_whole m ++ q
           /\ m_post m = q ++ b
           /\ try_at pattern (prev_after None (m_pre m ++ new ++ q)) b
              = Some (rest, caps).
Proof.
  intros _ H Hv.
  apply parse_version_inv in H
    as (pre & ws1 & ws2 & d1 & d2 & d3 & post & P & -> & Hb & Hn & Hp & ->).
  do 3 eexists. split; [now apply search_pattern_intro|].
  split; [now apply bump_version_within|].
  cbn [m_pre m_whole m_post]. intros a b rest caps E Na T.
  assert (D : decl_at a b).
  { destruct (try_at_pattern_sound _ _ _ _ T)
      as (Hb' & u1 & u2 & e1 & e2 & e3 & P' & -> & _).
    split; [assumption|]. now exists u1, u2, e1, e2, e3, rest. }
  assert (Q : exists q, a = pre ++ decl ws1 ws2 d1 d2 d3 ++ q /\ post = q ++ b).
  { apply app_eq_app in E as [l [[E1 E2]|[E1 E2]]].
    - exfalso. destruct l as [|c l]; [rewrite app_nil_r in E1; congruence|].
      apply (Hn a (c :: l) E1); [discriminate|]. now rewrite <- E2.
    - apply app_eq_app in E2 as [l' [[E3 E4]|[E3 E4]]].
      + destruct l' as [|c l'].
        * exists []. rewrite app_nil_r in E3. cbn [app] in E4. subst l b a.
          split; [now rewrite app_nil_r|reflexivity].
        * exfalso. destruct D as (_ & u1 & u2 & e1 & e2 & e3 & r' & P' & Eb).
          destruct (decl_one_v _ _ _ _ _ P') as (tl' & Etl' & _).
          rewrite Eb, Etl' in E4. injection E4 as Ec _. subst c.
          destruct (decl_one_v _ _ _ _ _ P) as (tl & Etl & Ftl).
          rewrite Etl in E3. destruct l as [|c l].
          { subst a. now rewrite app_nil_r in Na. }
          injection E3 as _ Et. subst tl. apply Forall_app in Ftl as [_ F].
          inversion F. congruence.
      + exists l'. subst. split; reflexivity. }
  destruct Q as (q & -> & ->). exists q. repeat split.
  destruct (next_version part (value d1, value d2, value d3)) as [[x y] z].
  cbn [decl_of_version]. rewrite prev_after_decl in *. exact T.
Qed.

Lemma C5_later_declarations_untouched_witness :
  exists m new new_version,
    search pattern (sample "1.2.3" ++ sample "7.8.9") = Some m
    /\ bump_version (sample "1.2.3" ++ sample "7.8.9") (lit "patch")
       = Ok (m_pre m ++ new ++ m_post m, new_version)
    /\ forall a b rest caps,
         sample "1.2.3" ++ sample "7.8.9" = a ++ b -> a <> m_pre m ->
         try_at pattern (prev_after None a) b = Some (rest, caps) ->
         exists q,
           a = m_pre m ++ m_whole m ++ q
           /\ m_post m = q ++ b
           /\ try_at pattern (prev_after None (m_pre m ++ new ++ q)) b
              = Some (rest, caps).
Proof.
  apply (C5_later_declarations_untouched
           (sample "1.2.3" ++ sample "7.8.9") (lit "patch") (1, 2, 3)).
  - vm_compute. apply le_n.
  - vm_compute. reflexivity.
  - vm_compute. reflexivity.
Defined.

(** C5 as first stated fails at the digit limit: a text with two
    declarations on which the major bump raises [ValueError]. *)
Lemma C5_counterexample :
  (2 <= count_decls (overflow_sample ++ [newline] ++ sample "1.2.3"))%nat
  /\ bump_version (overflow_sample ++ [newline] ++ sample "1.2.3")
       (lit "major")
     = Raise ValueError.
Proof.
  split.
  - pose proof (count_decls_decl [] _ _ _ _ _ ([newline] ++ sample "1.2.3")
                  overflow_parts eq_refl (no_earlier_nil _)) as H.
    cbn [app] in H. unfold overflow_sample. cbn [app]. rewrite H.
    apply le_n_S. vm_compute. apply le_n.
  - apply (overflow_raises [] ([newline] ++ sample "1.2.3"));
      [reflexivity|apply no_earlier_nil].
Qed.

(** C6 (amended).  When the numbers of the first declaration parse and the
    numbers of the incremented version have at most 4300 digits each, the
    version string [bump_version] returns, read from group 1 of the second
    pattern on the rewritten text, is the incremented version printed as
    MAJOR.MINOR.PATCH: the second scan always finds the declaration. *)
Theorem C6_returned_version_is_computed
  (text part : str) (m : Match) (v : N * N * N) :
  search pattern text = Some m ->
  parse_version text = Some v ->
  prints (next_version part v) = true ->
  exists new_text m',
    bump_version text part
    = Ok (new_text, version_str (next_version part v))
    /\ search ver_pattern new_text = Some m'
    /\ group m' 1 = Ok (version_str (next_version part v)).
Proof.
  intros _ H Hv.
  apply parse_version_inv in H
    as (a & ws1 & ws2 & d1 & d2 & d3 & rest & P & -> & Hb & Hn & Hp & ->).
  rewrite (bump_version_within part _ _ _ _ _ _ _ P Hb Hn Hp Hv).
  destruct (next_version part (value d1, value d2, value d3)) as [[x y] z].
  cbn [decl_of_version version_str] in *. do 2 eexists.
  split; [reflexivity|].
  assert (P' := decl_parts_of_version ws1 ws2 x y z (parts_ws1 _ _ _ _ _ P)
                  (parts_ws2 _ _ _ _ _ P)).
  split.
  - apply search_ver_pattern_intro; [assumption|assumption|].
    revert Hn. now apply no_earlier_decl.
  - reflexivity.
Qed.

Lemma C6_returned_version_is_computed_witness :
  exists new_text m',
    bump_version (sample "0.1.9") (lit "patch")
    = Ok (new_text, version_str (next_version (lit "patch") (0, 1, 9)))
    /\ search ver_pattern new_text = Some m'
    /\ group m' 1 = Ok (version_str (next_version (lit "patch") (0, 1, 9))).
Proof.
  apply (C6_returned_version_is_computed (sample "0.1.9") (lit "patch")
           (mkMatch
              (lit "[project]" ++ [newline] ++ lit "name = " ++ quoted "geg"
               ++ [newline])
              (lit "version = " ++ quoted "0.1.9")
              ([newline] ++ lit "requires-python = " ++ quoted ">=3.9"
               ++ [newline])
              (decl_caps [32] [32] (lit "0") (lit "1") (lit "9")))
           (0, 1, 9)); vm_compute; reflexivity.
Defined.

(** C6 as first stated fails at the digit limit: the text has a declaration
    and the major bump returns no version string. *)
Lemma C6_counterexample :
  (exists m, search pattern overflow_sample = Some m)
  /\ bump_version overflow_sample (lit "major") = Raise ValueError.
Proof.
  split; [eexists; apply overflow_sample_search|apply overflow_sample_raises].
Qed.

(** C7.  In [main], when [bump_version] fails because no version declaration
    is found, the run ends there: the could-not-find error comes out of
    [main], the only thing done was reading the file (the log gains the read
    and nothing else, so no write), and pyproject.toml holds what it held. *)
Theorem C7_no_write_when_bump_fails
  (sys_executable : str) (check_call : list str -> IO unit)
  (isdir : str -> World -> bool) (rmtree : str -> bool -> IO unit)
  (glob : str -> World -> list str)
  (args : Args) (w : World) (content : str) :
  pyproject w = Some content ->
  bump_version content (part args) = Raise (RuntimeError not_found_msg) ->
  exists w',
    main sys_executable check_call isdir rmtree glob args w
    = (Raise (RuntimeError not_found_msg), w')
    /\ pyproject w' = Some content
    /\ dirs w' = dirs w
    /\ trace w' = trace w ++ [EvRead].
Proof.
  intros Hw Hb. exists (log EvRead w).
  split; [|split; [assumption|split; reflexivity]].
  unfold main, bindIO, read_pyproject, lift. now rewrite Hw, Hb.
Qed.

Lemma C7_no_write_when_bump_fails_witness :
  exists w',
    main (lit "python3") (fun _ w => (Ok tt, w)) (fun _ _ => false)
      (fun _ _ w => (Ok tt, w)) (fun _ _ => [])
      (mkArgs (lit "pypi") (lit "patch") false)
      (mkWorld (Some (lit "[project]" ++ [newline] ++ lit "name = "
                      ++ quoted "geg" ++ [newline])) [] [] [])
    = (Raise (RuntimeError not_found_msg), w')
    /\ pyproject w'
       = Some (lit "[project]" ++ [newline] ++ lit "name = " ++ quoted "geg"
               ++ [newline])
    /\ dirs w' = []
    /\ trace w' = [] ++ [EvRead].
Proof.
  apply (C7_no_write_when_bump_fails (lit "python3") (fun _ w => (Ok tt, w))
           (fun _ _ => false) (fun _ _ w => (Ok tt, w)) (fun _ _ => [])
           (mkArgs (lit "pypi") (lit "patch") false)
           (mkWorld (Some (lit "[project]" ++ [newline] ++ lit "name = "
                           ++ quoted "geg" ++ [newline])) [] [] [])).
  - reflexivity.
  - vm_compute. reflexivity.
Defined.



Lemma begins_decl_try_at b :
  begins_decl b -> exists r, try_at pattern None b = Some r.
Proof.
  intros (ws1 & ws2 & d1 & d2 & d3 & rest & P & ->). eexists.
  now apply try_at_pattern_complete.
Qed.

Lemma indented_only_spec : forall s pre_rev,
  indented_only pre_rev s = true ->
  forall a b, s = a ++ b -> begins_decl b ->
              at_bol (prev_after (hd_error pre_rev) a) = false.
Proof.
  assert (Here : forall s pre_rev,
             match try_at pattern None s with
             | Some _ => negb (at_bol (hd_error pre_rev))
             | None => true
             end = true ->
             begins_decl s -> at_bol (hd_error pre_rev) = false).
  { intros s pre_rev H D. apply begins_decl_try_at in D as [r T].
    rewrite T in H. now apply negb_true_iff. }
  induction s as [|c s IH]; intros pre_rev H a b E D; cbn [indented_only] in H;
    apply andb_true_iff in H as [H1 H2].
  - symmetry in E. apply app_eq_nil in E as [-> ->]. now apply (Here []).
  - destruct a as [|c' a]; simpl in E.
    + subst b. now apply (Here (c :: s)).
    + injection E as <- ->. now apply (IH (c :: pre_rev) H2 a b).
Qed.

Lemma not_bol_preceded a :
  at_bol (prev_after None a) = false -> exists a' c, a = a' ++ [c] /\ c <> newline.
Proof.
  destruct a as [|x a] using rev_ind; [discriminate|].
  rewrite prev_after_snoc. cbn [at_bol]. intros H. exists a, x.
  split; [reflexivity|]. now apply N.eqb_neq.
Qed.

(** C9.  A declaration counts only at the start of a line.  When every place
    of the text where the text of a declaration begins has a character other
    than a line feed before it, [bump_version] raises the could-not-find
    error.  White space is accepted on both sides of the equals sign (the
    pattern matches such a declaration), while one white-space character put
    before the word version, on its line, makes the declaration invisible. *)
Theorem C9_declaration_must_start_line (part : str) :
  (forall text,
     (forall a b, text = a ++ b -> begins_decl b ->
                  exists a' c, a = a' ++ [c] /\ c <> newline) ->
     bump_version text part = Raise (RuntimeError not_found_msg))
  /\ (forall ws1 ws2 d1 d2 d3 c,
        decl_parts ws1 ws2 d1 d2 d3 ->
        search pattern (decl ws1 ws2 d1 d2 d3)
        = Some (mkMatch [] (decl ws1 ws2 d1 d2 d3) []
                  (decl_caps ws1 ws2 d1 d2 d3))
        /\ bump_version (decl ws1 ws2 d1 d2 d3) part
           <> Raise (RuntimeError not_found_msg)
        /\ (is_space c = true -> c <> newline ->
            bump_version (c :: decl ws1 ws2 d1 d2 d3) part
            = Raise (RuntimeError not_found_msg))).
Proof.
  assert (Main : forall text,
             (forall a b, text = a ++ b -> begins_decl b ->
                          exists a' c, a = a' ++ [c] /\ c <> newline) ->
             bump_version text part = Raise (RuntimeError not_found_msg)).
  { intros text H.
    destruct (bump_version_cases text part)
      as [[_ B]|(a & ws1 & ws2 & d1 & d2 & d3 & rest & P & E & Hb & _)];
      [assumption|].
    exfalso. destruct (H a _ E) as (a' & c & -> & Hc).
    - now exists ws1, ws2, d1, d2, d3, rest.
    - rewrite prev_after_snoc in Hb. cbn [at_bol] in Hb.
      now apply N.eqb_eq in Hb. }
  split; [exact Main|].
  intros ws1 ws2 d1 d2 d3 c P.
  assert (S : search pattern (decl ws1 ws2 d1 d2 d3)
              = Some (mkMatch [] (decl ws1 ws2 d1 d2 d3) []
                        (decl_caps ws1 ws2 d1 d2 d3))).
  { pose proof (search_pattern_intro [] _ _ _ _ _ [] P eq_refl
                  (no_earlier_nil _)) as H.
    cbn [app] in H. now rewrite app_nil_r in H. }
  split; [exact S|]. split.
  - intros B.
    destruct (bump_version_cases (decl ws1 ws2 d1 d2 d3) part)
      as [[S' _]|(a & u1 & u2 & e1 & e2 & e3 & r & _ & _ & _ & _ & _ & B')];
      [congruence|].
    rewrite B' in B. destruct (parses e1 e2 e3 && prints _); discriminate.
  - intros Hs Hc. apply Main. intros a b E (u1 & u2 & e1 & e2 & e3 & r & P' & ->).
    destruct (decl_one_v _ _ _ _ _ P') as (tl' & Etl' & _).
    rewrite Etl' in E. destruct a as [|x a]; simpl in E.
    + injection E as Ec _. subst c. discriminate Hs.
    + injection E as <- E. destruct a as [|y a].
      * exists [], c. auto.
      * exfalso. destruct (decl_one_v _ _ _ _ _ P) as (tl & Etl & Ftl).
        rewrite Etl in E. simpl in E. injection E as _ ->.
        apply Forall_app in Ftl as [_ F]. inversion F. congruence.
Qed.

Lemma C9_declaration_must_start_line_witness :
  bump_version (lit "[tool]" ++ [newline] ++ lit "  version = " ++ quoted "1.2.3"
                ++ [newline]) (lit "patch")
  = Raise (RuntimeError not_found_msg).
Proof.
  apply (proj1 (C9_declaration_must_start_line (lit "patch"))).
  intros a b E D. apply not_bol_preceded.
  apply (indented_only_spec
           (lit "[tool]" ++ [newline] ++ lit "  version = " ++ quoted "1.2.3"
            ++ [newline]) []) with (b := b);
    [vm_compute; reflexivity|exact E|exact D].
Defined.

(** C10 (amended).  The closing quote need not end the line.  Take the first
    match of any text whose numbers parse, with the numbers of the
    incremented version within the digit limit, and put anything at all
    after its closing quote: [bump_version] still matches there, keeps group
    1 (up to the opening quote) and the closing quote, replaces the quoted
    value by the incremented version and returns what follows unchanged. *)
Theorem C10_trailing_content_kept
  (text part : str) (m : Match) (v : N * N * N) (trailing : str) :
  search pattern text = Some m ->
  parse_version text = Some v ->
  prints (next_version part v) = true ->
  exists g1 g2 g3 g4,
    group m 1 = Ok g1 /\ group m 2 = Ok g2
    /\ group m 3 = Ok g3 /\ group m 4 = Ok g4
    /\ v = (value g2, value g3, value g4)
    /\ m_whole m = g1 ++ dotted g2 g3 g4 ++ [dquote]
    /\ bump_version (m_pre m ++ m_whole m ++ trailing) part
       = Ok (m_pre m
             ++ (g1 ++ version_str (next_version part v) ++ [dquote])
             ++ trailing,
             version_str (next_version part v)).
Proof.
  intros S H Hv.
  apply parse_version_inv in H
    as (a & ws1 & ws2 & d1 & d2 & d3 & rest & P & -> & Hb & Hn & Hp & ->).
  rewrite (search_pattern_intro _ _ _ _ _ _ _ P Hb Hn) in S.
  injection S as <-. cbn [m_pre m_whole].
  exists (decl_head ws1 ws2), d1, d2, d3.
  repeat (split; [reflexivity|]).
  rewrite (bump_version_within part a ws1 ws2 d1 d2 d3 trailing P Hb);
    try assumption.
  - now destruct (next_version part (value d1, value d2, value d3)) as [[x y] z].
  - revert Hn. now apply no_earlier_decl.
Qed.

Lemma C10_trailing_content_kept_witness :
  exists g1 g2 g3 g4,
    Ok (lit "version = " ++ [dquote]) = Ok g1
    /\ Ok (lit "1") = Ok g2 /\ Ok (lit "2") = Ok g3 /\ Ok (lit "3") = Ok g4
    /\ (1, 2, 3) = (value g2, value g3, value g4)
    /\ lit "version = " ++ quoted "1.2.3" = g1 ++ dotted g2 g3 g4 ++ [dquote]
    /\ bump_version
         (lit "[project]" ++ [newline]
          ++ (lit "version = " ++ quoted "1.2.3")
          ++ lit "  # bumped by release.py" ++ [newline])
         (lit "minor")
       = Ok (lit "[project]" ++ [newline]
             ++ (g1 ++ version_str (next_version (lit "minor") (1, 2, 3))
                 ++ [dquote])
             ++ lit "  # bumped by release.py" ++ [newline],
             version_str (next_version (lit "minor") (1, 2, 3))).
Proof.
  apply (C10_trailing_content_kept
           (lit "[project]" ++ [newline] ++ lit "version = " ++ quoted "1.2.3")
           (lit "minor")
           (mkMatch (lit "[project]" ++ [newline])
              (lit "version = " ++ quoted "1.2.3") []
              (decl_caps [32] [32] (lit "1") (lit "2") (lit "3")))
           (1, 2, 3)
           (lit "  # bumped by release.py" ++ [newline]));
    vm_compute; reflexivity.
Defined.

(** C10 as first stated fails at the digit limit: with trailing content
    after the closing quote of a declaration that the pattern matches, the
    major bump raises [ValueError] and returns nothing. *)
Lemma C10_counterexample :
  (exists m,
     search pattern (overflow_sample ++ lit "  # comment") = Some m
     /\ m_whole m = overflow_sample /\ m_post m = lit "  # comment")
  /\ bump_version (overflow_sample ++ lit "  # comment") (lit "major")
     = Raise ValueError.
Proof.
  split.
  - eexists. split; [|split].
    + apply (search_pattern_intro [] _ _ _ _ _ (lit "  # comment")
               overflow_parts eq_refl (no_earlier_nil _)).
    + reflexivity.
    + reflexivity.
  - apply (overflow_raises [] (lit "  # comment"));
      [reflexivity|apply no_earlier_nil].
Qed.

(** * Further properties of the script *)

(** ** The number of declarations *)

(** X1.  A successful bump keeps the number of declarations of the text: the
    pattern matches at as many places in the output as in the input. *)
Theorem X1_bump_keeps_declaration_count (text part new_text new_version : str) :
  bump_version text part = Ok (new_text, new_version) ->
  count_decls new_text = count_decls text.
Proof.
  intros B.
  apply bump_version_Ok_inv in B
    as (a & ws1 & ws2 & d1 & d2 & d3 & rest & v' & P & -> & Hb & Hn & _ & _
        & _ & -> & _).
  destruct v' as [[x y] z].
  rewrite (count_decls_decl _ _ _ _ _ _ _ P Hb Hn).
  cbn [decl_of_version].
  apply count_decls_decl; [|assumption|].
  - apply decl_parts_of_version; now destruct P.
  - revert Hn. apply no_earlier_decl; [assumption|].
    apply decl_parts_of_version; now destruct P.
Qed.

Lemma X1_bump_keeps_declaration_count_witness :
  count_decls (sample "1.9.9" ++ sample "0.0.7" ++ lit "version = 3")
  = count_decls (sample "1.9.8" ++ sample "0.0.7" ++ lit "version = 3").
Proof.
  apply (X1_bump_keeps_declaration_count
           (sample "1.9.8" ++ sample "0.0.7" ++ lit "version = 3") (lit "patch")
           (sample "1.9.9" ++ sample "0.0.7" ++ lit "version = 3")
           (lit "1.9.9")).
  vm_compute. reflexivity.
Defined.

(** ** Bumping again *)

Lemma bump_version_of_version part a ws1 ws2 d1 d2 d3 rest v :
  decl_parts ws1 ws2 d1 d2 d3 ->
  at_bol (prev_after None a) = true ->
  no_earlier a (decl ws1 ws2 d1 d2 d3 ++ rest) ->
  prints v = true ->
  bump_version (a ++ decl_of_version ws1 ws2 v ++ rest) part
  = if prints (next_version part v)
    then Ok (a ++ decl_of_version ws1 ws2 (next_version part v) ++ rest,
             version_str (next_version part v))
    else Raise ValueError.
Proof.
  intros P Hb Hn Hv. destruct v as [[x y] z]. cbn [decl_of_version].
  assert (P' := decl_parts_of_version ws1 ws2 x y z (parts_ws1 _ _ _ _ _ P)
                  (parts_ws2 _ _ _ _ _ P)).
  rewrite (bump_version_decl part a _ _ _ _ _ rest P' Hb).
  - change (parses (decimal x) (decimal y) (decimal z)) with (prints (x, y, z)).
    rewrite Hv. now rewrite !(proj1 (decimal_spec _)).
  - revert Hn. now apply no_earlier_decl.
Qed.

(** X2.  Bumps compose.  On the text a bump returned, a second bump whose
    result is within the digit limit returns the version obtained by applying
    the second increment to the first one, and the text it returns declares
    that version; beyond the limit the second bump raises [ValueError]. *)
Theorem X2_bumps_compose (text part1 part2 text1 version1 : str) :
  bump_version text part1 = Ok (text1, version1) ->
  exists v,
    parse_version text = Some v
    /\ (prints (next_version part2 (next_version part1 v)) = true ->
        exists text2,
          bump_version text1 part2
          = Ok (text2,
                version_str (next_version part2 (next_version part1 v)))
          /\ parse_version text2
             = Some (next_version part2 (next_version part1 v)))
    /\ (prints (next_version part2 (next_version part1 v)) = false ->
        bump_version text1 part2 = Raise ValueError).
Proof.
  intros B.
  apply bump_version_Ok_inv in B
    as (a & ws1 & ws2 & d1 & d2 & d3 & rest & v' & P & -> & Hb & Hn & -> & Hp
        & Hv & -> & _).
  exists (value d1, value d2, value d3).
  split; [now rewrite (parse_version_decl _ _ _ _ _ _ _ P Hb Hn), Hp|].
  rewrite (bump_version_of_version part2 a ws1 ws2 d1 d2 d3 rest _ P Hb Hn Hv).
  split; intros H2; rewrite H2; [|reflexivity].
  eexists. split; [reflexivity|].
  now apply parse_version_of_version with (d1 := d1) (d2 := d2) (d3 := d3).
Qed.

Lemma X2_bumps_compose_witness :
  exists v,
    parse_version (sample "1.2.3") = Some v
    /\ (prints (next_version (lit "patch") (next_version (lit "minor") v))
        = true ->
        exists text2,
          bump_version (sample "1.3.0") (lit "patch")
          = Ok (text2,
                version_str (next_version (lit "patch")
                               (next_version (lit "minor") v)))
          /\ parse_version text2
             = Some (next_version (lit "patch")
                       (next_version (lit "minor") v)))
    /\ (prints (next_version (lit "patch") (next_version (lit "minor") v))
        = false ->
        bump_version (sample "1.3.0") (lit "patch") = Raise ValueError).
Proof.
  apply (X2_bumps_compose (sample "1.2.3") (lit "minor") (lit "patch")
           (sample "1.3.0") (lit "1.3.0")).
  vm_compute. reflexivity.
Defined.

(** X3.  A bump of a coarser part absorbs an earlier bump of a finer part: a
    major bump after a bump that was not major returns what the major bump
    of the original text returns, and a minor bump after a bump that was
    neither major nor minor returns what the minor bump of the original text
    returns. *)
Theorem X3_coarser_bump_absorbs_finer (text part text1 version1 : str) :
  bump_version text part = Ok (text1, version1) ->
  part <> lit "major" ->
  bump_version text1 (lit "major") = bump_version text (lit "major")
  /\ (part <> lit "minor" ->
      bump_version text1 (lit "minor") = bump_version text (lit "minor")).
Proof.
  intros B Hmaj.
  apply bump_version_Ok_inv in B
    as (a & ws1 & ws2 & d1 & d2 & d3 & rest & v' & P & -> & Hb & Hn & Ev & Hp
        & Hv & -> & _).
  assert (Step : forall p,
             next_version p v'
             = next_version p (value d1, value d2, value d3) ->
             bump_version (a ++ decl_of_version ws1 ws2 v' ++ rest) p
             = bump_version (a ++ decl ws1 ws2 d1 d2 d3 ++ rest) p).
  { intros p E.
    rewrite (bump_version_of_version p a ws1 ws2 d1 d2 d3 rest _ P Hb Hn Hv),
      (bump_version_decl p a ws1 ws2 d1 d2 d3 rest P Hb Hn), Hp, E.
    reflexivity. }
  subst v'. unfold next_version in Step at 2.
  rewrite (str_eqb_neq _ _ Hmaj) in Step.
  split; [|intros Hmin; rewrite (str_eqb_neq _ _ Hmin) in Step];
    apply Step.
  - destruct (str_eqb part (lit "minor")); reflexivity.
  - reflexivity.
Qed.

Lemma X3_coarser_bump_absorbs_finer_witness :
  bump_version (sample "4.5.7") (lit "major")
  = bump_version (sample "4.5.6") (lit "major")
  /\ (lit "patch" <> lit "minor" ->
      bump_version (sample "4.5.7") (lit "minor")
      = bump_version (sample "4.5.6") (lit "minor")).
Proof.
  apply (X3_coarser_bump_absorbs_finer (sample "4.5.6") (lit "patch")
           (sample "4.5.7") (lit "4.5.7")).
  - vm_compute. reflexivity.
  - vm_compute. intros H. discriminate H.
Defined.

Lemma ver_lt_irrefl v : ~ ver_lt v v.
Proof. destruct v as [[x y] z]. unfold ver_lt. lia. Qed.

(** X4.  A bump that succeeds never returns the text it was given. *)
Theorem X4_bump_changes_text (text part new_text new_version : str) :
  bump_version text part = Ok (new_text, new_version) -> new_text <> text.
Proof.
  intros B E. subst new_text.
  apply bump_version_Ok_inv in B
    as (a & ws1 & ws2 & d1 & d2 & d3 & rest & v' & P & Et & Hb & Hn & Ev & Hp
        & Hv & E & _).
  assert (G := next_version_gt part (value d1, value d2, value d3)).
  rewrite <- Ev in G.
  assert (V : parse_version text = Some (value d1, value d2, value d3)).
  { rewrite Et, (parse_version_decl _ _ _ _ _ _ _ P Hb Hn). now rewrite Hp. }
  rewrite E in V at 1.
  rewrite (parse_version_of_version a ws1 ws2 d1 d2 d3 rest _ P Hb Hn Hv) in V.
  injection V as V. rewrite V in G. now apply ver_lt_irrefl in G.
Qed.

Lemma X4_bump_changes_text_witness : sample "0.0.1" <> sample "0.0.0".
Proof.
  apply (X4_bump_changes_text (sample "0.0.0") (lit "patch") (sample "0.0.1")
           (lit "0.0.1")).
  vm_compute. reflexivity.
Defined.

(** ** How the numbers are printed *)

Lemma is_digit_bounds c : is_digit c = true -> 48 <= c <= 57.
Proof.
  unfold is_digit. intros H. apply andb_true_iff in H as [H1 H2].
  apply N.leb_le in H1, H2. lia.
Qed.

Lemma digits_of_head f : forall n,
  1 <= n -> n < 2 ^ N.of_nat (S f) ->
  exists c tl, digits_of (S f) n = c :: tl /\ c <> 48.
Proof.
  induction f as [|f IH]; intros n H1 Hn; rewrite digits_of_S;
    destruct (N.ltb_spec n 10) as [L|L].
  - exists (48 + n), []. split; [reflexivity|lia].
  - change (2 ^ N.of_nat 1) with 2 in Hn. lia.
  - exists (48 + n), []. split; [reflexivity|lia].
  - assert (Hq : n / 10 < 2 ^ N.of_nat (S f)).
    { rewrite Nat2N.inj_succ, N.pow_succ_r' in Hn.
      apply N.Div0.div_lt_upper_bound. lia. }
    assert (Hp : 1 <= n / 10).
    { apply N.div_le_lower_bound; lia. }
    destruct (IH _ Hp Hq) as (c & tl & -> & Hc).
    exists c, (tl ++ [48 + n mod 10]). split; [reflexivity|assumption].
Qed.

Lemma no_leading_zero_head c tl : c <> 48 -> no_leading_zero (c :: tl) = true.
Proof.
  intros H. destruct tl; [reflexivity|]. cbn [no_leading_zero].
  apply negb_true_iff. now apply N.eqb_neq.
Qed.

Lemma no_leading_zero_long c tl x :
  no_leading_zero (c :: tl ++ [x]) = true -> c <> 48.
Proof.
  destruct tl; cbn [app no_leading_zero]; intros H;
    apply negb_true_iff in H; now apply N.eqb_neq.
Qed.

Lemma decimal_no_leading_zero n : no_leading_zero (decimal n) = true.
Proof.
  destruct n as [|p]; [reflexivity|]. unfold decimal.
  destruct (digits_of_head (N.to_nat (N.log2 (N.pos p))) (N.pos p))
    as (c & tl & -> & Hc); [lia| |now apply no_leading_zero_head].
  rewrite Nat2N.inj_succ, N2Nat.id. apply N.log2_spec. lia.
Qed.

Lemma fold_value_ge tl : forall acc,
  acc <= fold_left (fun acc c => 10 * acc + digit_val c) tl acc.
Proof.
  induction tl as [|x tl IH]; intros acc; cbn [fold_left]; [lia|].
  specialize (IH (10 * acc + digit_val x)). lia.
Qed.

Lemma value_pos c tl :
  is_digit c = true -> c <> 48 -> 1 <= value (c :: tl).
Proof.
  intros D H. apply is_digit_bounds in D. unfold value. cbn [fold_left].
  pose proof (fold_value_ge tl (10 * 0 + digit_val c)) as G.
  unfold digit_val in *. lia.
Qed.

(** Two runs of digits without leading zeros and with the same value are the
    same text. *)
Lemma canonical_unique d : forall e,
  number d -> number e ->
  no_leading_zero d = true -> no_leading_zero e = true ->
  value d = value e -> d = e.
Proof.
  induction d as [|c d' IH] using rev_ind; intros e [Nd Dd] [Ne De] Zd Ze V;
    [congruence|].
  destruct e as [|c' e' _] using rev_ind; [congruence|].
  rewrite !value_snoc in V. rewrite forallb_app in Dd, De.
  apply andb_true_iff in Dd as [Dd Dc], De as [De Dc'].
  cbn [forallb] in Dc, Dc'. rewrite andb_true_r in Dc, Dc'.
  apply is_digit_bounds in Dc, Dc'.
  assert (Vc : c = c' /\ value d' = value e') by (unfold digit_val in V; lia).
  destruct Vc as [<- V']. f_equal.
  destruct d' as [|x d'], e' as [|y e'].
  - reflexivity.
  - exfalso. apply no_leading_zero_long in Ze.
    cbn [forallb] in De. apply andb_true_iff in De as [Dy _].
    pose proof (value_pos y e' Dy Ze). change (value []) with 0 in V'. lia.
  - exfalso. apply no_leading_zero_long in Zd.
    cbn [forallb] in Dd. apply andb_true_iff in Dd as [Dx _].
    pose proof (value_pos x d' Dx Zd). change (value []) with 0 in V'. lia.
  - apply IH; try assumption; try (split; [discriminate|assumption]).
    + apply no_leading_zero_head. now apply no_leading_zero_long in Zd.
    + apply no_leading_zero_head. now apply no_leading_zero_long in Ze.
Qed.

(** Printing the value of a run of digits without leading zero gives the run
    back. *)
Lemma decimal_value d :
  number d -> no_leading_zero d = true -> decimal (value d) = d.
Proof.
  intros Nd Zd. destruct (decimal_spec (value d)) as [V Ns].
  apply canonical_unique; auto using decimal_no_leading_zero.
Qed.

(** Leading zeros are not kept: all three numbers are printed afresh. *)
Example leading_zeros_dropped :
  bump_version (lit "version = " ++ quoted "01.02.03") (lit "patch")
  = Ok (lit "version = " ++ quoted "1.2.4", lit "1.2.4").
Proof. vm_compute. reflexivity. Qed.

(** X5.  In the text a bump returns, the three numbers of the first
    declaration are written without leading zeros, whatever the input had,
    and the version string returned is these three numbers joined by dots. *)
Theorem X5_bumped_numbers_have_no_leading_zeros
  (text part new_text new_version : str) :
  bump_version text part = Ok (new_text, new_version) ->
  exists m x y z,
    search pattern new_text = Some m
    /\ group m 2 = Ok x /\ group m 3 = Ok y /\ group m 4 = Ok z
    /\ no_leading_zero x = true /\ no_leading_zero y = true
    /\ no_leading_zero z = true
    /\ new_version = dotted x y z.
Proof.
  intros B.
  apply bump_version_Ok_inv in B
    as (a & ws1 & ws2 & d1 & d2 & d3 & rest & v' & P & -> & Hb & Hn & _ & _
        & _ & -> & ->).
  destruct v' as [[x y] z].
  eexists. exists (decimal x), (decimal y), (decimal z).
  split.
  - apply (search_after_bump a ws1 ws2 d1 d2 d3 rest (x, y, z) P Hb Hn).
  - repeat split; apply decimal_no_leading_zero.
Qed.

Lemma X5_bumped_numbers_have_no_leading_zeros_witness :
  exists m x y z,
    search pattern (sample "1.2.4") = Some m
    /\ group m 2 = Ok x /\ group m 3 = Ok y /\ group m 4 = Ok z
    /\ no_leading_zero x = true /\ no_leading_zero y = true
    /\ no_leading_zero z = true
    /\ lit "1.2.4" = dotted x y z.
Proof.
  apply (X5_bumped_numbers_have_no_leading_zeros (sample "001.02.0003")
           (lit "patch") (sample "1.2.4") (lit "1.2.4")).
  vm_compute. reflexivity.
Defined.

(** X6.  The numbers a bump does not increment keep their text when they are
    written without leading zeros: a minor bump leaves the major number as it
    stands, and a bump that is neither major nor minor leaves the major and
    the minor number as they stand; only what follows is rewritten.  (The
    numbers read and the number incremented are within the digit limit.) *)
Theorem X6_unbumped_numbers_keep_their_text
  (text : str) (m : Match) (g1 g2 g3 g4 : str) :
  search pattern text = Some m ->
  group m 1 = Ok g1 -> group m 2 = Ok g2 ->
  group m 3 = Ok g3 -> group m 4 = Ok g4 ->
  parses g2 g3 g4 = true ->
  no_leading_zero g2 = true ->
  (short (decimal (value g3 + 1)) = true ->
   bump_version text (lit "minor")
   = Ok (m_pre m ++ g1 ++ dotted g2 (decimal (value g3 + 1)) (lit "0")
         ++ [dquote] ++ m_post m,
         dotted g2 (decimal (value g3 + 1)) (lit "0")))
  /\ (forall part,
        part <> lit "major" -> part <> lit "minor" ->
        no_leading_zero g3 = true ->
        short (decimal (value g4 + 1)) = true ->
        bump_version text part
        = Ok (m_pre m ++ g1 ++ dotted g2 g3 (decimal (value g4 + 1))
              ++ [dquote] ++ m_post m,
              dotted g2 g3 (decimal (value g4 + 1)))).
Proof.
  intros S G1 G2 G3 G4 Hp Z2.
  apply search_pattern_Some in S
    as (a & ws1 & ws2 & d1 & d2 & d3 & rest & P & -> & Hb & Hn & ->).
  unfold group in G1, G2, G3, G4.
  cbn [m_caps decl_caps lookup Nat.eqb] in G1, G2, G3, G4.
  injection G1 as <-. injection G2 as <-. injection G3 as <-.
  injection G4 as <-. cbn [m_pre m_post].
  pose proof Hp as Hp'. unfold parses in Hp'.
  apply andb_true_iff in Hp' as [Hp' S3]. apply andb_true_iff in Hp' as [S1 S2].
  destruct P as [W1 W2 N1 N2 N3].
  assert (P : decl_parts ws1 ws2 d1 d2 d3) by now constructor.
  split.
  - intros H3.
    rewrite (bump_version_decl (lit "minor") a ws1 ws2 d1 d2 d3 rest P Hb Hn), Hp.
    change (next_version (lit "minor") (value d1, value d2, value d3))
      with (value d1, value d2 + 1, 0).
    cbn [prints decl_of_version version_str].
    rewrite (decimal_value d1 N1 Z2), S1, H3, short_decimal_small.
    cbn [andb]. unfold decl. now rewrite <- !app_assoc.
  - intros part Hmaj Hmin Z3 H4.
    rewrite (bump_version_decl part a ws1 ws2 d1 d2 d3 rest P Hb Hn), Hp.
    unfold next_version.
    rewrite (str_eqb_neq _ _ Hmaj), (str_eqb_neq _ _ Hmin).
    cbn [prints decl_of_version version_str].
    rewrite (decimal_value d1 N1 Z2), (decimal_value d2 N2 Z3), S1, S2, H4.
    cbn [andb]. unfold decl. now rewrite <- !app_assoc.
Qed.

Lemma X6_unbumped_numbers_keep_their_text_witness :
  (short (decimal (value (lit "20") + 1)) = true ->
   bump_version (lit "version = " ++ quoted "10.20.0030") (lit "minor")
   = Ok ([] ++ (lit "version = " ++ [dquote])
         ++ dotted (lit "10") (decimal (value (lit "20") + 1)) (lit "0")
         ++ [dquote] ++ [],
         dotted (lit "10") (decimal (value (lit "20") + 1)) (lit "0")))
  /\ (forall part,
        part <> lit "major" -> part <> lit "minor" ->
        no_leading_zero (lit "20") = true ->
        short (decimal (value (lit "0030") + 1)) = true ->
        bump_version (lit "version = " ++ quoted "10.20.0030") part
        = Ok ([] ++ (lit "version = " ++ [dquote])
              ++ dotted (lit "10") (lit "20")
                   (decimal (value (lit "0030") + 1))
              ++ [dquote] ++ [],
              dotted (lit "10") (lit "20")
                (decimal (value (lit "0030") + 1)))).
Proof.
  apply (X6_unbumped_numbers_keep_their_text
           (lit "version = " ++ quoted "10.20.0030")
           (mkMatch [] (lit "version = " ++ quoted "10.20.0030") []
              (decl_caps [32] [32] (lit "10") (lit "20") (lit "0030")))
           (lit "version = " ++ [dquote]) (lit "10") (lit "20") (lit "0030"));
    vm_compute; reflexivity.
Defined.

(** The minor bump and the patch bump of the same text, side by side: the
    untouched numbers stand as they stood. *)
Example unbumped_numbers_kept :
  bump_version (lit "version = " ++ quoted "10.20.0030") (lit "minor")
  = Ok (lit "version = " ++ quoted "10.21.0", lit "10.21.0")
  /\ bump_version (lit "version = " ++ quoted "10.20.0030") (lit "patch")
     = Ok (lit "version = " ++ quoted "10.20.31", lit "10.20.31").
Proof. split; vm_compute; reflexivity. Qed.

(** ** Semantic x.y.z only *)

(** A run of characters of a set followed by a text that does not start with
    one can be read off in one way only. *)
Lemma span_unique p : forall w1 w2 s1 s2,
  forallb p w1 = true -> forallb p w2 = true ->
  stops p s1 -> stops p s2 ->
  w1 ++ s1 = w2 ++ s2 -> w1 = w2 /\ s1 = s2.
Proof.
  induction w1 as [|c w1 IH]; intros [|c2 w2] s1 s2 H1 H2 S1 S2 E;
    cbn [app forallb] in *.
  - auto.
  - subst s1. apply andb_true_iff in H2 as [H2 _]. cbn [stops] in S1.
    congruence.
  - subst s2. apply andb_true_iff in H1 as [H1 _]. cbn [stops] in S2.
    congruence.
  - injection E as <- E. apply andb_true_iff in H1 as [_ H1], H2 as [_ H2].
    destruct (IH w2 s1 s2 H1 H2 S1 S2 E) as [-> ->]. auto.
Qed.

(** The text up to the last digit of the third number: it starts with the
    letter v, has no other v and ends with a digit. *)
Lemma decl_open_shape ws1 ws2 d1 d2 d3 :
  decl_parts ws1 ws2 d1 d2 d3 ->
  exists tl h dl,
    decl_head ws1 ws2 ++ dotted d1 d2 d3 = 118 :: tl
    /\ Forall (fun c => c <> 118) tl
    /\ decl_head ws1 ws2 ++ dotted d1 d2 d3 = h ++ [dl]
    /\ is_digit dl = true.
Proof.
  intros P. destruct (decl_one_v _ _ _ _ _ P) as (tl & E & F).
  destruct P as [_ _ _ _ [N3 D3]].
  destruct (exists_last N3) as (d3' & dl & ->).
  rewrite forallb_app in D3. apply andb_true_iff in D3 as [_ D3].
  cbn [forallb] in D3. rewrite andb_true_r in D3.
  unfold decl in E. rewrite app_assoc in E.
  destruct (decl_head ws1 ws2 ++ dotted d1 d2 (d3' ++ [dl])) as [|x h] eqn:Eh.
  - exfalso. unfold decl_head in Eh. discriminate Eh.
  - cbn [app] in E. injection E as -> <-. apply Forall_app in F as [F _].
    exists h, (decl_head ws1 ws2 ++ d1 ++ [46] ++ d2 ++ [46] ++ d3'), dl.
    repeat split; try assumption.
    rewrite <- Eh. unfold dotted. now rewrite <- !app_assoc.
Qed.

(** X7.  Only x.y.z is supported.  A version followed by anything but the
    closing quote (a fourth number, a pre-release tag) is not a declaration,
    and a text made of such a line alone makes [bump_version] raise the
    could-not-find error. *)
Theorem X7_version_with_suffix_is_not_found
  (ws1 ws2 d1 d2 d3 : str) (c : char) (rest part : str) :
  decl_parts ws1 ws2 d1 d2 d3 ->
  is_digit c = false -> c <> dquote ->
  ~ begins_decl (decl_head ws1 ws2 ++ dotted d1 d2 d3 ++ c :: rest)
  /\ (Forall (fun x => x <> newline) (c :: rest) ->
      bump_version (decl_head ws1 ws2 ++ dotted d1 d2 d3 ++ c :: rest) part
      = Raise (RuntimeError not_found_msg)).
Proof.
  intros P Dc Qc.
  assert (Here : ~ begins_decl
                   (decl_head ws1 ws2 ++ dotted d1 d2 d3 ++ c :: rest)).
  { intros (u1 & u2 & e1 & e2 & e3 & r & P' & E).
    destruct P as [W1 W2 [_ D1] [_ D2] [_ D3]].
    destruct P' as [U1 U2 [_ E1] [_ E2] [_ E3]].
    unfold decl, decl_head, dotted in E. rewrite <- !app_assoc in E.
    apply app_inv_head in E.
    apply span_unique with (p := is_space) in E as [_ E];
      [|assumption|assumption|reflexivity|reflexivity].
    cbn [app] in E. injection E as E.
    apply span_unique with (p := is_space) in E as [_ E];
      [|assumption|assumption|reflexivity|reflexivity].
    cbn [app] in E. injection E as E.
    apply span_unique with (p := is_digit) in E as [_ E];
      [|assumption|assumption|reflexivity|reflexivity].
    cbn [app] in E. injection E as E.
    apply span_unique with (p := is_digit) in E as [_ E];
      [|assumption|assumption|reflexivity|reflexivity].
    cbn [app] in E. injection E as E.
    apply span_unique with (p := is_digit) in E as [_ E];
      [|assumption|assumption|exact Dc|reflexivity].
    cbn [app] in E. injection E as E _. contradiction. }
  split; [exact Here|]. intros Line.
  destruct (bump_version_cases
              (decl_head ws1 ws2 ++ dotted d1 d2 d3 ++ c :: rest) part)
    as [[_ B]|(a & u1 & u2 & e1 & e2 & e3 & r & P' & E & Hb & _)];
    [assumption|].
  exfalso.
  destruct a as [|x a _] using rev_ind.
  - apply Here. rewrite E. now exists u1, u2, e1, e2, e3, r.
  - rewrite prev_after_snoc in Hb. cbn [at_bol] in Hb.
    apply N.eqb_eq in Hb. subst x.
    destruct (decl_one_v _ _ _ _ _ P') as (tl' & Etl' & _).
    destruct (decl_open_shape _ _ _ _ _ P) as (tl & h & dl & Eh & Fh & El & Dl).
    rewrite Etl', (app_assoc (decl_head ws1 ws2)) in E.
    remember (decl_head ws1 ws2 ++ dotted d1 d2 d3) as hd eqn:Ehd.
    assert (NoLf : hd <> a ++ [newline]).
    { intros E0. rewrite E0 in El. apply app_inj_tail in El as [_ <-].
      discriminate Dl. }
    apply app_eq_app in E as [l [[E1 E2]|[E1 E2]]].
    + destruct l as [|y l]; [now rewrite app_nil_r in E1|].
      cbn [app] in E2. injection E2 as <- _.
      rewrite Eh in E1. destruct a as [|z a]; [discriminate E1|].
      cbn [app] in E1. injection E1 as _ ->.
      apply Forall_app in Fh as [_ F]. inversion F. congruence.
    + destruct l as [|y l1 _] using rev_ind;
        [rewrite app_nil_r in E1; now symmetry in E1|].
      rewrite app_assoc in E1. apply app_inj_tail in E1 as [_ <-].
      rewrite Forall_forall in Line. apply (Line newline); [|reflexivity].
      rewrite E2, <- app_assoc. apply in_or_app. right. now left.
Qed.

Lemma X7_version_with_suffix_is_not_found_witness :
  ~ begins_decl (decl_head [32] [32] ++ dotted (lit "1") (lit "2") (lit "3")
                 ++ 45 :: lit "rc1" ++ [dquote])
  /\ (Forall (fun x => x <> newline) (45 :: lit "rc1" ++ [dquote]) ->
      bump_version (decl_head [32] [32] ++ dotted (lit "1") (lit "2") (lit "3")
                    ++ 45 :: lit "rc1" ++ [dquote]) (lit "patch")
      = Raise (RuntimeError not_found_msg)).
Proof.
  apply (X7_version_with_suffix_is_not_found [32] [32] (lit "1") (lit "2")
           (lit "3") 45 (lit "rc1" ++ [dquote]) (lit "patch")).
  - repeat split; try discriminate; reflexivity.
  - reflexivity.
  - discriminate.
Defined.

(** ** The three parts compared *)

(** X8.  From one and the same text, when the three incremented versions
    are within the digit limit, the patch bump, the minor bump and the major
    bump all succeed and return texts whose versions are in this order:
    input, then patch, then minor, then major. *)
Theorem X8_patch_minor_major_are_ordered (text : str) (X Y Z : N) :
  parse_version text = Some (X, Y, Z) ->
  prints (X, Y, Z + 1) = true ->
  prints (X, Y + 1, 0) = true ->
  prints (X + 1, 0, 0) = true ->
  exists tp sp tm sm tM sM vp vm vM,
    bump_version text (lit "patch") = Ok (tp, sp)
    /\ bump_version text (lit "minor") = Ok (tm, sm)
    /\ bump_version text (lit "major") = Ok (tM, sM)
    /\ parse_version tp = Some vp /\ parse_version tm = Some vm
    /\ parse_version tM = Some vM
    /\ ver_lt (X, Y, Z) vp /\ ver_lt vp vm /\ ver_lt vm vM.
Proof.
  intros H Hpa Hmi Hma. apply parse_version_inv in H
    as (a & ws1 & ws2 & d1 & d2 & d3 & rest & P & -> & Hb & Hn & Hp & E).
  injection E as -> -> ->.
  do 6 eexists.
  exists (value d1, value d2, value d3 + 1), (value d1, value d2 + 1, 0),
    (value d1 + 1, 0, 0).
  repeat split.
  1, 2, 3: now apply bump_version_within.
  1, 2, 3: now apply parse_version_of_version with (d1 := d1) (d2 := d2) (d3 := d3).
  all: unfold ver_lt; lia.
Qed.

Lemma X8_patch_minor_major_are_ordered_witness :
  exists tp sp tm sm tM sM vp vm vM,
    bump_version (sample "2.7.18") (lit "patch") = Ok (tp, sp)
    /\ bump_version (sample "2.7.18") (lit "minor") = Ok (tm, sm)
    /\ bump_version (sample "2.7.18") (lit "major") = Ok (tM, sM)
    /\ parse_version tp = Some vp /\ parse_version tm = Some vm
    /\ parse_version tM = Some vM
    /\ ver_lt (2, 7, 18) vp /\ ver_lt vp vm /\ ver_lt vm vM.
Proof.
  apply (X8_patch_minor_major_are_ordered (sample "2.7.18") 2 7 18);
    vm_compute; reflexivity.
Defined.

(** ** The script around the bump *)

Lemma keeps_bindIO {A B} (m : IO A) (k : A -> IO B) :
  keeps_pyproject m -> (forall a, keeps_pyproject (k a)) ->
  keeps_pyproject (bindIO m k).
Proof.
  intros Hm Hk w. unfold bindIO. specialize (Hm w).
  destruct (m w) as [[a|e] w1]; cbn [snd] in *; [rewrite Hk|]; assumption.
Qed.

Lemma keeps_ret {A} (a : A) : keeps_pyproject (ret a).
Proof. intros w. reflexivity. Qed.

Lemma keeps_print line : keeps_pyproject (print line).
Proof. intros w. reflexivity. Qed.

Lemma keeps_for_each {A} (body : A -> IO unit) (l : list A) :
  (forall x, keeps_pyproject (body x)) -> keeps_pyproject (for_each l body).
Proof.
  intros H. induction l as [|x l IH]; cbn [for_each].
  - apply keeps_ret.
  - apply keeps_bindIO; auto.
Qed.

Section MainFacts.
Variable sys_executable : str.
Variable check_call : list str -> IO unit.
Variable isdir : str -> World -> bool.
Variable rmtree : str -> bool -> IO unit.
Variable glob : str -> World -> list str.

Lemma keeps_run cmd :
  (forall c, keeps_pyproject (check_call c)) ->
  keeps_pyproject (run check_call cmd).
Proof.
  intros H. unfold run. apply keeps_bindIO; [apply keeps_print|auto].
Qed.

Lemma keeps_clean :
  (forall d b, keeps_pyproject (rmtree d b)) ->
  keeps_pyproject (clean isdir rmtree glob).
Proof.
  intros H. unfold clean. apply keeps_bindIO.
  - apply keeps_for_each. intros d w. destruct (isdir d w); [apply H|reflexivity].
  - intros _ w. now apply keeps_for_each.
Qed.
End MainFacts.

(** X9.  The bump is never rolled back.  When the operating system calls
    leave pyproject.toml alone and [bump_version] succeeds, the file holds
    the bumped text at the end of [main], whether the later steps (cleaning,
    build, check, upload) succeed or fail, and that text declares the
    incremented version. *)
Theorem X9_bump_is_never_rolled_back
  (sys_executable : str) (check_call : list str -> IO unit)
  (isdir : str -> World -> bool) (rmtree : str -> bool -> IO unit)
  (glob : str -> World -> list str)
  (args : Args) (w : World) (content new_content new_version : str) :
  (forall cmd, keeps_pyproject (check_call cmd)) ->
  (forall d b, keeps_pyproject (rmtree d b)) ->
  pyproject w = Some content ->
  bump_version content (part args) = Ok (new_content, new_version) ->
  pyproject (snd (main sys_executable check_call isdir rmtree glob args w))
  = Some new_content
  /\ exists v, parse_version content = Some v
               /\ parse_version new_content
                  = Some (next_version (part args) v).
Proof.
  intros Hc Hr Hw Hb. split.
  - unfold main. unfold bindIO at 1. unfold read_pyproject. rewrite Hw.
    unfold bindIO at 1. unfold lift. rewrite Hb.
    unfold bindIO at 1. unfold write_pyproject.
    match goal with
    | |- pyproject (snd (?f ?w2)) = _ =>
        assert (K : keeps_pyproject f); [|now rewrite (K w2)]
    end.
    apply keeps_bindIO; [apply keeps_print|intros _].
    apply keeps_bindIO; [now apply keeps_clean|intros _].
    apply keeps_bindIO; [now apply keeps_run|intros _].
    apply keeps_bindIO; [now apply keeps_run|intros _].
    destruct (no_upload args); [apply keeps_print|].
    intros w'. now apply keeps_run.
  - apply bump_version_Ok_inv in Hb
      as (a & ws1 & ws2 & d1 & d2 & d3 & rest & v' & P & -> & Hbol & Hn & Ev
          & Hp & Hv & -> & _).
    exists (value d1, value d2, value d3). rewrite <- Ev.
    split; [now rewrite (parse_version_decl _ _ _ _ _ _ _ P Hbol Hn), Hp|].
    now apply parse_version_of_version with (d1 := d1) (d2 := d2) (d3 := d3).
Qed.

Lemma X9_bump_is_never_rolled_back_witness :
  pyproject
    (snd (main (lit "python3") (fun _ w => (Raise OSError, w))
            (fun _ _ => true) (fun _ _ w => (Ok tt, w)) (fun _ _ => [])
            (mkArgs (lit "pypi") (lit "minor") false)
            (mkWorld (Some (sample "1.2.3")) [] [] [])))
  = Some (sample "1.3.0")
  /\ exists v, parse_version (sample "1.2.3") = Some v
               /\ parse_version (sample "1.3.0")
                  = Some (next_version (lit "minor") v).
Proof.
  apply (X9_bump_is_never_rolled_back (lit "python3")
           (fun _ w => (Raise OSError, w)) (fun _ _ => true)
           (fun _ _ w => (Ok tt, w)) (fun _ _ => [])
           (mkArgs (lit "pypi") (lit "minor") false)
           (mkWorld (Some (sample "1.2.3")) [] [] [])
           (sample "1.2.3") (sample "1.3.0") (lit "1.3.0")).
  - intros cmd w. reflexivity.
  - intros d b w. reflexivity.
  - reflexivity.
  - vm_compute. reflexivity.
Defined.

(** X10.  With --no-upload the only commands [main] runs are the build and
    the twine check: two worlds of operating system calls that agree on
    these two commands give the same run, whatever they do on any other
    command (the upload in particular). *)
Theorem X10_no_upload_runs_build_and_check_only
  (sys_executable : str) (check_call1 check_call2 : list str -> IO unit)
  (isdir : str -> World -> bool) (rmtree : str -> bool -> IO unit)
  (glob : str -> World -> list str) (args : Args) (w : World) :
  no_upload args = true ->
  (forall w', check_call1 [sys_executable; lit "-m"; lit "build"] w'
              = check_call2 [sys_executable; lit "-m"; lit "build"] w') ->
  (forall w',
     check_call1 [sys_executable; lit "-m"; lit "twine"; lit "check";
                  lit "dist/*"] w'
     = check_call2 [sys_executable; lit "-m"; lit "twine"; lit "check";
                    lit "dist/*"] w') ->
  main sys_executable check_call1 isdir rmtree glob args w
  = main sys_executable check_call2 isdir rmtree glob args w.
Proof.
  intros Hno H1 H2. unfold main. rewrite Hno. unfold run, bindIO.
  destruct (read_pyproject w) as [[c|e] w1]; [|reflexivity].
  destruct (lift _ w1) as [[[nc nv]|e] w2]; [|reflexivity].
  destruct (write_pyproject nc w2) as [[[]|e] w3]; [|reflexivity].
  destruct (print _ w3) as [[[]|e] w4]; [|reflexivity].
  destruct (clean isdir rmtree glob w4) as [[[]|e] w5]; [|reflexivity].
  destruct (print _ w5) as [[[]|e] w6]; [|reflexivity].
  rewrite H1. destruct (check_call2 _ w6) as [[[]|e] w7]; [|reflexivity].
  destruct (print _ w7) as [[[]|e] w8]; [|reflexivity].
  now rewrite H2.
Qed.

Lemma X10_no_upload_runs_build_and_check_only_witness :
  main (lit "python3") (fun _ w => (Ok tt, w)) (fun _ _ => false)
    (fun _ _ w => (Ok tt, w)) (fun _ _ => [])
    (mkArgs (lit "pypi") (lit "patch") true)
    (mkWorld (Some (sample "1.2.3")) [] [] [])
  = main (lit "python3")
      (fun cmd w => match cmd with
                    | [_; _; _] | [_; _; _; _; _] => (Ok tt, w)
                    | _ => (Raise OSError, w)
                    end)
      (fun _ _ => false) (fun _ _ w => (Ok tt, w)) (fun _ _ => [])
      (mkArgs (lit "pypi") (lit "patch") true)
      (mkWorld (Some (sample "1.2.3")) [] [] []).
Proof.
  apply (X10_no_upload_runs_build_and_check_only (lit "python3")
           (fun _ w => (Ok tt, w))
           (fun cmd w => match cmd with
                         | [_; _; _] | [_; _; _; _; _] => (Ok tt, w)
                         | _ => (Raise OSError, w)
                         end)); reflexivity.
Defined.

(** X11.  With no dist directory, no build directory and nothing matching
    *.egg-info, [clean] returns normally and changes nothing, whatever
    removing a directory would do: the removal is never attempted. *)
Theorem X11_clean_with_nothing_to_remove
  (isdir : str -> World -> bool) (rmtree : str -> bool -> IO unit)
  (glob : str -> World -> list str) (w : World) :
  isdir (lit "dist") w = false ->
  isdir (lit "build") w = false ->
  glob (lit "*.egg-info") w = [] ->
  clean isdir rmtree glob w = (Ok tt, w).
Proof.
  intros Hd Hb Hg. unfold clean, bindIO. cbn [for_each]. unfold bindIO, ret.
  now rewrite Hd, Hb, Hg.
Qed.

Lemma X11_clean_with_nothing_to_remove_witness :
  clean (fun _ _ => false) (fun _ _ w => (Raise OSError, w)) (fun _ _ => [])
    (mkWorld (Some (sample "1.2.3")) [lit "src"] [] [])
  = (Ok tt, mkWorld (Some (sample "1.2.3")) [lit "src"] [] []).
Proof.
  apply (X11_clean_with_nothing_to_remove (fun _ _ => false)
           (fun _ _ w => (Raise OSError, w)) (fun _ _ => [])
           (mkWorld (Some (sample "1.2.3")) [lit "src"] [] []));
    reflexivity.
Defined.

(** ** The log of a run in which every step succeeds *)

Lemma emits_bind (m : IO unit) (k : unit -> IO unit) w e1 e2 :
  emits_at m w e1 ->
  (forall w', environ w' = environ w -> emits_at (k tt) w' e2) ->
  emits_at (bindIO m k) w (e1 ++ e2).
Proof.
  intros (w1 & E1 & T1 & V1) Hk.
  destruct (Hk w1 V1) as (w2 & E2 & T2 & V2).
  exists w2. unfold bindIO. rewrite E1, E2.
  split; [reflexivity|]. split; [|congruence].
  now rewrite T2, T1, app_assoc.
Qed.

Lemma emits_ret w : emits_at (ret tt) w [].
Proof. exists w. now rewrite app_nil_r. Qed.

Lemma emits_print line w : emits_at (print line) w [EvPrint line].
Proof. exists (log (EvPrint line) w). auto. Qed.

Lemma emits_for_each {A} (body : A -> IO unit) (l : list A) :
  (forall x, quiet (body x)) -> quiet (for_each l body).
Proof.
  intros H. induction l as [|x l IH]; intros w; cbn [for_each].
  - apply emits_ret.
  - change (@nil event) with (@nil event ++ []). apply emits_bind; [apply H|].
    intros w' _. apply IH.
Qed.

Section LogFacts.
Variable sys_executable : str.
Variable check_call : list str -> IO unit.
Variable isdir : str -> World -> bool.
Variable rmtree : str -> bool -> IO unit.
Variable glob : str -> World -> list str.
Hypothesis check_call_quiet : forall cmd, quiet (check_call cmd).
Hypothesis rmtree_quiet : forall d b, quiet (rmtree d b).

Lemma emits_run cmd w :
  emits_at (run check_call cmd) w [EvPrint (lit "$ " ++ join (lit " ") cmd)].
Proof.
  unfold run.
  change [EvPrint (lit "$ " ++ join (lit " ") cmd)]
    with ([EvPrint (lit "$ " ++ join (lit " ") cmd)] ++ []).
  apply emits_bind; [apply emits_print|]. intros w' _. apply check_call_quiet.
Qed.

Lemma emits_clean : quiet (clean isdir rmtree glob).
Proof.
  intros w. unfold clean. change (@nil event) with (@nil event ++ []).
  apply emits_bind.
  - apply emits_for_each. intros d w'. unfold emits_at. cbv beta.
    destruct (isdir d w'); [apply rmtree_quiet|apply emits_ret].
  - intros w' _. now apply emits_for_each.
Qed.

(** The run of [main] up to the end of the twine check. *)
Lemma main_log_until_check args w content new_content new_version
      (last : IO unit) (ev : event) :
  pyproject w = Some content ->
  bump_version content (part args) = Ok (new_content, new_version) ->
  (forall w', environ w' = environ w -> emits_at last w' [ev]) ->
  exists w',
    (content <~ read_pyproject ;;
     r <~ lift (bump_version content (part args)) ;;
     let '(new_content, new_version) := r in
     _ <~ write_pyproject new_content ;;
     _ <~ print (lit "Bumped version to " ++ new_version) ;;
     _ <~ clean isdir rmtree glob ;;
     _ <~ run check_call [sys_executable; lit "-m"; lit "build"] ;;
     _ <~ run check_call
            [sys_executable; lit "-m"; lit "twine"; lit "check"; lit "dist/*"] ;;
     last) w = (Ok tt, w')
    /\ trace w'
       = trace w
         ++ [EvRead; EvWrite new_content;
             EvPrint (lit "Bumped version to " ++ new_version);
             EvPrint (lit "$ " ++ join (lit " ")
                        [sys_executable; lit "-m"; lit "build"]);
             EvPrint (lit "$ " ++ join (lit " ")
                        [sys_executable; lit "-m"; lit "twine"; lit "check";
                         lit "dist/*"]);
             ev].
Proof.
  intros Hw Hb Hlast.
  unfold bindIO at 1. unfold read_pyproject. rewrite Hw.
  unfold bindIO at 1. unfold lift. rewrite Hb.
  unfold bindIO at 1. unfold write_pyproject.
  match goal with
  | |- exists w', ?f ?w2 = _ /\ _ =>
      assert (T : emits_at f w2
                    ([EvPrint (lit "Bumped version to " ++ new_version)]
                     ++ [] ++ [EvPrint (lit "$ " ++ join (lit " ")
                                          [sys_executable; lit "-m"; lit "build"])]
                     ++ [EvPrint (lit "$ " ++ join (lit " ")
                                    [sys_executable; lit "-m"; lit "twine";
                                     lit "check"; lit "dist/*"])]
                     ++ [ev]))
  end.
  { apply emits_bind; [apply emits_print|intros w3 V3].
    apply emits_bind; [apply emits_clean|intros w4 V4].
    apply emits_bind; [apply emits_run|intros w5 V5].
    apply emits_bind; [apply emits_run|intros w6 V6].
    apply Hlast. cbn [environ log] in *. congruence. }
  destruct T as (w' & E & T & _). exists w'. split; [exact E|].
  rewrite T. cbn [trace log app]. now rewrite <- !app_assoc.
Qed.
End LogFacts.

(** X12.  A run without upload in which every operating system call
    succeeds quietly: [main] returns normally and its log is, in this order,
    the read, the write of the bumped text, the line announcing the new
    version, the build command, the twine check command and the line saying
    that the upload is skipped. *)
Theorem X12_log_of_a_run_without_upload
  (sys_executable : str) (check_call : list str -> IO unit)
  (isdir : str -> World -> bool) (rmtree : str -> bool -> IO unit)
  (glob : str -> World -> list str)
  (args : Args) (w : World) (content new_content new_version : str) :
  (forall cmd, quiet (check_call cmd)) ->
  (forall d b, quiet (rmtree d b)) ->
  pyproject w = Some content ->
  bump_version content (part args) = Ok (new_content, new_version) ->
  no_upload args = true ->
  exists w',
    main sys_executable check_call isdir rmtree glob args w = (Ok tt, w')
    /\ trace w'
       = trace w
         ++ [EvRead; EvWrite new_content;
             EvPrint (lit "Bumped version to " ++ new_version);
             EvPrint (lit "$ " ++ join (lit " ")
                        [sys_executable; lit "-m"; lit "build"]);
             EvPrint (lit "$ " ++ join (lit " ")
                        [sys_executable; lit "-m"; lit "twine"; lit "check";
                         lit "dist/*"]);
             EvPrint (lit "Build complete. Skipping upload.")].
Proof.
  intros Hc Hr Hw Hb Hno. unfold main. rewrite Hno.
  apply (main_log_until_check sys_executable check_call isdir rmtree glob
           Hc Hr args w content new_content new_version); try assumption.
  intros w' _. apply emits_print.
Qed.

Lemma X12_log_of_a_run_without_upload_witness :
  exists w',
    main (lit "python3") (fun _ w => (Ok tt, w)) (fun _ _ => true)
      (fun _ _ w => (Ok tt, w)) (fun _ _ => [lit "geg.egg-info"])
      (mkArgs (lit "pypi") (lit "patch") true)
      (mkWorld (Some (sample "1.2.3")) [] [] [])
    = (Ok tt, w')
    /\ trace w'
       = trace (mkWorld (Some (sample "1.2.3")) [] [] [])
         ++ [EvRead; EvWrite (sample "1.2.4");
             EvPrint (lit "Bumped version to " ++ lit "1.2.4");
             EvPrint (lit "$ " ++ join (lit " ")
                        [lit "python3"; lit "-m"; lit "build"]);
             EvPrint (lit "$ " ++ join (lit " ")
                        [lit "python3"; lit "-m"; lit "twine"; lit "check";
                         lit "dist/*"]);
             EvPrint (lit "Build complete. Skipping upload.")].
Proof.
  apply (X12_log_of_a_run_without_upload (lit "python3")
           (fun _ w => (Ok tt, w)) (fun _ _ => true)
           (fun _ _ w => (Ok tt, w)) (fun _ _ => [lit "geg.egg-info"])
           (mkArgs (lit "pypi") (lit "patch") true)
           (mkWorld (Some (sample "1.2.3")) [] [] [])
           (sample "1.2.3") (sample "1.2.4") (lit "1.2.4")).
  - intros cmd w. exists w. cbn [trace]. now rewrite app_nil_r.
  - intros d b w. exists w. cbn [trace]. now rewrite app_nil_r.
  - reflexivity.
  - vm_compute. reflexivity.
  - reflexivity.
Defined.

(** X13.  When both TWINE_USERNAME and TWINE_PASSWORD are set and not empty,
    the upload command carries them, and since every command is printed
    before it is run, the password appears in what [main] prints. *)
Theorem X13_upload_prints_the_password
  (sys_executable : str) (check_call : list str -> IO unit)
  (isdir : str -> World -> bool) (rmtree : str -> bool -> IO unit)
  (glob : str -> World -> list str)
  (args : Args) (w : World) (content new_content new_version u p : str) :
  (forall cmd, quiet (check_call cmd)) ->
  (forall d b, quiet (rmtree d b)) ->
  pyproject w = Some content ->
  bump_version content (part args) = Ok (new_content, new_version) ->
  no_upload args = false ->
  environ_get (lit "TWINE_USERNAME") (environ w) = Some u -> u <> [] ->
  environ_get (lit "TWINE_PASSWORD") (environ w) = Some p -> p <> [] ->
  exists w',
    main sys_executable check_call isdir rmtree glob args w = (Ok tt, w')
    /\ trace w'
       = trace w
         ++ [EvRead; EvWrite new_content;
             EvPrint (lit "Bumped version to " ++ new_version);
             EvPrint (lit "$ " ++ join (lit " ")
                        [sys_executable; lit "-m"; lit "build"]);
             EvPrint (lit "$ " ++ join (lit " ")
                        [sys_executable; lit "-m"; lit "twine"; lit "check";
                         lit "dist/*"]);
             EvPrint (lit "$ " ++ join (lit " ")
                        ([sys_executable; lit "-m"; lit "twine"; lit "upload"]
                         ++ (if str_eqb (repo args) (lit "testpypi")
                             then [lit "--repository"; lit "testpypi"]
                             else [])
                         ++ [lit "--username"; u; lit "--password"; p;
                             lit "dist/*"]))].
Proof.
  intros Hc Hr Hw Hb Hno HU Nu HP Np. unfold main. rewrite Hno.
  apply (main_log_until_check sys_executable check_call isdir rmtree glob
           Hc Hr args w content new_content new_version); try assumption.
  intros w' V. unfold emits_at. cbv beta zeta.
  rewrite <- V in HU, HP. rewrite HU, HP.
  destruct u as [|u0 u]; [congruence|]. destruct p as [|p0 p]; [congruence|].
  cbn [truthy andb].
  match goal with
  | |- exists w'', run _ ?c w' = _ /\ trace w'' = _ ++ [EvPrint (_ ++ join _ ?c')] /\ _ =>
      replace c' with c
        by (destruct (str_eqb (repo args) (lit "testpypi")); reflexivity)
  end.
  now apply emits_run.
Qed.

Lemma X13_upload_prints_the_password_witness :
  exists w',
    main (lit "python3") (fun _ w => (Ok tt, w)) (fun _ _ => false)
      (fun _ _ w => (Ok tt, w)) (fun _ _ => [])
      (mkArgs (lit "testpypi") (lit "patch") false)
      (mkWorld (Some (sample "1.2.3")) []
         [(lit "TWINE_PASSWORD", lit "hunter2");
          (lit "TWINE_USERNAME", lit "__token__")] [])
    = (Ok tt, w')
    /\ trace w'
       = trace (mkWorld (Some (sample "1.2.3")) []
                  [(lit "TWINE_PASSWORD", lit "hunter2");
                   (lit "TWINE_USERNAME", lit "__token__")] [])
         ++ [EvRead; EvWrite (sample "1.2.4");
             EvPrint (lit "Bumped version to " ++ lit "1.2.4");
             EvPrint (lit "$ " ++ join (lit " ")
                        [lit "python3"; lit "-m"; lit "build"]);
             EvPrint (lit "$ " ++ join (lit " ")
                        [lit "python3"; lit "-m"; lit "twine"; lit "check";
                         lit "dist/*"]);
             EvPrint (lit "$ " ++ join (lit " ")
                        ([lit "python3"; lit "-m"; lit "twine"; lit "upload"]
                         ++ (if str_eqb
                                  (repo (mkArgs (lit "testpypi") (lit "patch")
                                           false))
                                  (lit "testpypi")
                             then [lit "--repository"; lit "testpypi"]
                             else [])
                         ++ [lit "--username"; lit "__token__";
                             lit "--password"; lit "hunter2"; lit "dist/*"]))].
Proof.
  apply (X13_upload_prints_the_password (lit "python3")
           (fun _ w => (Ok tt, w)) (fun _ _ => false)
           (fun _ _ w => (Ok tt, w)) (fun _ _ => [])
           (mkArgs (lit "testpypi") (lit "patch") false)
           (mkWorld (Some (sample "1.2.3")) []
              [(lit "TWINE_PASSWORD", lit "hunter2");
               (lit "TWINE_USERNAME", lit "__token__")] [])
           (sample "1.2.3") (sample "1.2.4") (lit "1.2.4")
           (lit "__token__") (lit "hunter2")).
  - intros cmd w. exists w. cbn [trace]. now rewrite app_nil_r.
  - intros d b w. exists w. cbn [trace]. now rewrite app_nil_r.
  - reflexivity.
  - vm_compute. reflexivity.
  - reflexivity.
  - vm_compute. reflexivity.
  - discriminate.
  - vm_compute. reflexivity.
  - discriminate.
Defined.

(** X14.  When TWINE_USERNAME or TWINE_PASSWORD is unset or empty, neither
    is passed on: the upload command has no --username and no --password,
    even if one of the two is set. *)
Theorem X14_upload_without_both_credentials
  (sys_executable : str) (check_call : list str -> IO unit)
  (isdir : str -> World -> bool) (rmtree : str -> bool -> IO unit)
  (glob : str -> World -> list str)
  (args : Args) (w : World) (content new_content new_version : str) :
  (forall cmd, quiet (check_call cmd)) ->
  (forall d b, quiet (rmtree d b)) ->
  pyproject w = Some content ->
  bump_version content (part args) = Ok (new_content, new_version) ->
  no_upload args = false ->
  truthy (environ_get (lit "TWINE_USERNAME") (environ w))
  && truthy (environ_get (lit "TWINE_PASSWORD") (environ w)) = false ->
  exists w',
    main sys_executable check_call isdir rmtree glob args w = (Ok tt, w')
    /\ trace w'
       = trace w
         ++ [EvRead; EvWrite new_content;
             EvPrint (lit "Bumped version to " ++ new_version);
             EvPrint (lit "$ " ++ join (lit " ")
                        [sys_executable; lit "-m"; lit "build"]);
             EvPrint (lit "$ " ++ join (lit " ")
                        [sys_executable; lit "-m"; lit "twine"; lit "check";
                         lit "dist/*"]);
             EvPrint (lit "$ " ++ join (lit " ")
                        ([sys_executable; lit "-m"; lit "twine"; lit "upload"]
                         ++ (if str_eqb (repo args) (lit "testpypi")
                             then [lit "--repository"; lit "testpypi"]
                             else [])
                         ++ [lit "dist/*"]))].
Proof.
  intros Hc Hr Hw Hb Hno HT. unfold main. rewrite Hno.
  apply (main_log_until_check sys_executable check_call isdir rmtree glob
           Hc Hr args w content new_content new_version); try assumption.
  intros w' V. unfold emits_at. cbv beta zeta. rewrite <- V in HT.
  match goal with
  | |- exists w'', run _ ?c w' = _ /\ trace w'' = _ ++ [EvPrint (_ ++ join _ ?c')] /\ _ =>
      replace c' with c; [now apply emits_run|]
  end.
  destruct (environ_get (lit "TWINE_USERNAME") (environ w')) as [u|];
    destruct (environ_get (lit "TWINE_PASSWORD") (environ w')) as [p|];
    try rewrite HT;
    destruct (str_eqb (repo args) (lit "testpypi")); reflexivity.
Qed.

Lemma X14_upload_without_both_credentials_witness :
  exists w',
    main (lit "python3") (fun _ w => (Ok tt, w)) (fun _ _ => false)
      (fun _ _ w => (Ok tt, w)) (fun _ _ => [])
      (mkArgs (lit "pypi") (lit "patch") false)
      (mkWorld (Some (sample "1.2.3")) []
         [(lit "TWINE_USERNAME", lit "__token__")] [])
    = (Ok tt, w')
    /\ trace w'
       = trace (mkWorld (Some (sample "1.2.3")) []
                  [(lit "TWINE_USERNAME", lit "__token__")] [])
         ++ [EvRead; EvWrite (sample "1.2.4");
             EvPrint (lit "Bumped version to " ++ lit "1.2.4");
             EvPrint (lit "$ " ++ join (lit " ")
                        [lit "python3"; lit "-m"; lit "build"]);
             EvPrint (lit "$ " ++ join (lit " ")
                        [lit "python3"; lit "-m"; lit "twine"; lit "check";
                         lit "dist/*"]);
             EvPrint (lit "$ " ++ join (lit " ")
                        ([lit "python3"; lit "-m"; lit "twine"; lit "upload"]
                         ++ (if str_eqb
                                  (repo (mkArgs (lit "pypi") (lit "patch")
                                           false))
                                  (lit "testpypi")
                             then [lit "--repository"; lit "testpypi"]
                             else [])
                         ++ [lit "dist/*"]))].
Proof.
  apply (X14_upload_without_both_credentials (lit "python3")
           (fun _ w => (Ok tt, w)) (fun _ _ => false)
           (fun _ _ w => (Ok tt, w)) (fun _ _ => [])
           (mkArgs (lit "pypi") (lit "patch") false)
           (mkWorld (Some (sample "1.2.3")) []
              [(lit "TWINE_USERNAME", lit "__token__")] [])
           (sample "1.2.3") (sample "1.2.4") (lit "1.2.4")).
  - intros cmd w. exists w. cbn [trace]. now rewrite app_nil_r.
  - intros d b w. exists w. cbn [trace]. now rewrite app_nil_r.
  - reflexivity.
  - vm_compute. reflexivity.
  - reflexivity.
  - vm_compute. reflexivity.
Defined.

(** X15.  A failing build stops the run after the file was written.  When
    the build command fails, [main] fails with the same exception; by then
    the bumped text has been written and announced, and neither the twine
    check nor the upload is run or printed. *)
Theorem X15_failing_build_stops_the_run
  (sys_executable : str) (check_call : list str -> IO unit)
  (isdir : str -> World -> bool) (rmtree : str -> bool -> IO unit)
  (glob : str -> World -> list str)
  (args : Args) (w : World) (content new_content new_version : str) (e : exn) :
  (forall d b, quiet (rmtree d b)) ->
  (forall w0, exists w1,
      check_call [sys_executable; lit "-m"; lit "build"] w0 = (Raise e, w1)
      /\ trace w1 = trace w0) ->
  pyproject w = Some content ->
  bump_version content (part args) = Ok (new_content, new_version) ->
  exists w',
    main sys_executable check_call isdir rmtree glob args w = (Raise e, w')
    /\ trace w'
       = trace w
         ++ [EvRead; EvWrite new_content;
             EvPrint (lit "Bumped version to " ++ new_version);
             EvPrint (lit "$ " ++ join (lit " ")
                        [sys_executable; lit "-m"; lit "build"])].
Proof.
  intros Hr Hfail Hw Hb. unfold main.
  unfold bindIO at 1. unfold read_pyproject. rewrite Hw.
  unfold bindIO at 1. unfold lift. rewrite Hb.
  unfold bindIO at 1. unfold write_pyproject.
  unfold bindIO at 1. unfold print at 1.
  unfold bindIO at 1.
  match goal with
  | |- context [clean isdir rmtree glob ?w3] =>
      destruct (emits_clean isdir rmtree glob Hr w3) as (w4 & E4 & T4 & _)
  end.
  rewrite E4. unfold bindIO at 1. unfold run at 1. unfold bindIO at 1.
  unfold print at 1.
  match goal with
  | |- context [check_call _ ?w5] =>
      destruct (Hfail w5) as (w6 & E6 & T6)
  end.
  rewrite E6. exists w6. split; [reflexivity|].
  rewrite T6. cbn [trace log]. rewrite T4. cbn [trace log].
  now rewrite <- !app_assoc.
Qed.

Lemma X15_failing_build_stops_the_run_witness :
  exists w',
    main (lit "python3") (fun _ w => (Raise OSError, w)) (fun _ _ => false)
      (fun _ _ w => (Ok tt, w)) (fun _ _ => [])
      (mkArgs (lit "pypi") (lit "major") false)
      (mkWorld (Some (sample "1.2.3")) [] [] [])
    = (Raise OSError, w')
    /\ trace w'
       = trace (mkWorld (Some (sample "1.2.3")) [] [] [])
         ++ [EvRead; EvWrite (sample "2.0.0");
             EvPrint (lit "Bumped version to " ++ lit "2.0.0");
             EvPrint (lit "$ " ++ join (lit " ")
                        [lit "python3"; lit "-m"; lit "build"])].
Proof.
  apply (X15_failing_build_stops_the_run (lit "python3")
           (fun _ w => (Raise OSError, w)) (fun _ _ => false)
           (fun _ _ w => (Ok tt, w)) (fun _ _ => [])
           (mkArgs (lit "pypi") (lit "major") false)
           (mkWorld (Some (sample "1.2.3")) [] [] [])
           (sample "1.2.3") (sample "2.0.0") (lit "2.0.0") OSError).
  - intros d b w. exists w. cbn [trace]. now rewrite app_nil_r.
  - intros w0. exists w0. auto.
  - reflexivity.
  - vm_compute. reflexivity.
Defined.
